(** * The post analysis engine of lib/algorithm-engine.js

    A shallow embedding of the rule table [PATTERNS], of [analyzePost] with
    its five passes, and of [generateOptimizedVariants], together with the
    part of the JavaScript runtime these functions rely on: strings as
    sequences of UTF-16 code units, regular expressions, [split], [trim],
    object property lookup and IEEE-754 double arithmetic. *)

From Stdlib Require Import ZArith NArith List String Ascii Bool Lia.
From Stdlib Require Import SpecFloat DecimalString QArith Qround.
Import ListNotations.

Local Open Scope Z_scope.

(* ================================================================= *)
(** ** The JavaScript runtime *)

Module JS.

(** A JavaScript string is a finite sequence of UTF-16 code units. *)
Definition text := list N.

(** The code units of an ASCII literal of the source. *)
Definition lit (s : string) : text :=
  map N_of_ascii (list_ascii_of_string s).

Definition length (s : text) : Z := Z.of_nat (List.length s).

Definition between (lo hi c : N) : bool := ((lo <=? c) && (c <=? hi))%N.

Definition is_digit (c : N) : bool := between 48 57 c.
Definition is_upper (c : N) : bool := between 65 90 c.
Definition is_lower (c : N) : bool := between 97 122 c.

(** [\w]: the basic word characters [A-Za-z0-9_].  Without the [u] flag the
    [i] flag adds nothing to this set. *)
Definition is_word (c : N) : bool :=
  is_digit c || is_upper c || is_lower c || (c =? 95)%N.

(** [\s], which is also what [trim] removes: WhiteSpace and LineTerminator. *)
Definition is_space (c : N) : bool :=
  between 9 13 c || (c =? 32)%N || (c =? 160)%N || (c =? 5760)%N
  || between 8192 8202 c || (c =? 8232)%N || (c =? 8233)%N
  || (c =? 8239)%N || (c =? 8287)%N || (c =? 12288)%N || (c =? 65279)%N.

(** Canonicalize of a code unit under the [i] flag (no [u] flag): the upper
    case mapping, except that a code unit above 127 is never sent to an
    ASCII one.  Every pattern of the program is ASCII, so only the ASCII part
    of the mapping can make two canonical forms equal. *)
Definition canonicalize (c : N) : N :=
  if is_lower c then (c - 32)%N else c.

Definition char_eq (ignoreCase : bool) (p c : N) : bool :=
  if ignoreCase then (canonicalize p =? canonicalize c)%N else (p =? c)%N.

(** The pattern syntax used by the program. *)
Inductive regex : Type :=
| RStr (w : text)                 (* a run of literal characters *)
| RSet (p : N -> bool)            (* a class atom: [\w], [\d], [[A-Z]], ... *)
| RPlus (p : N -> bool)           (* a class atom under the greedy [+] *)
| RSeq (r1 r2 : regex)
| RAlt (r1 r2 : regex)
| RWordB                          (* [\b] *)
| RBol.                           (* [^] *)

Record RegExp : Type := mkRegExp {
  source : regex;
  ignoreCase : bool;
  unicode : bool
}.

Definition orelse {A} (a b : option A) : option A :=
  match a with Some x => Some x | None => b end.

Definition is_word_opt (c : option N) : bool :=
  match c with Some x => is_word x | None => false end.

(** The backtracking matcher, in continuation-passing style.  A position is
    the character before it (if any) and the input that remains; the answer
    is the input left after the first match the backtracking order finds. *)
Section Matcher.
Variable ic : bool.

Definition cont := option N -> text -> option text.

Fixpoint str_match (w : text) (prev : option N) (s : text) (k : cont)
  : option text :=
  match w with
  | [] => k prev s
  | p :: w' =>
      match s with
      | c :: s' => if char_eq ic p c then str_match w' (Some c) s' k else None
      | [] => None
      end
  end.

Fixpoint plus_loop (p : N -> bool) (last : N) (s : text) (k : cont)
  : option text :=
  match s with
  | c :: s' =>
      if p c then orelse (plus_loop p c s' k) (k (Some last) s)
      else k (Some last) s
  | [] => k (Some last) []
  end.

Fixpoint rmatch (r : regex) (prev : option N) (s : text) (k : cont)
  : option text :=
  match r with
  | RStr w => str_match w prev s k
  | RSet p =>
      match s with
      | c :: s' => if p c then k (Some c) s' else None
      | [] => None
      end
  | RPlus p =>
      match s with
      | c :: s' => if p c then plus_loop p c s' k else None
      | [] => None
      end
  | RSeq r1 r2 => rmatch r1 prev s (fun p' s' => rmatch r2 p' s' k)
  | RAlt r1 r2 => orelse (rmatch r1 prev s k) (rmatch r2 prev s k)
  | RWordB =>
      if xorb (is_word_opt prev) (is_word_opt (hd_error s)) then k prev s
      else None
  | RBol => match prev with None => k prev s | Some _ => None end
  end.

(** One attempt at a position. *)
Definition match_at (r : regex) (prev : option N) (s : text) : option text :=
  rmatch r prev s (fun _ rest => Some rest).

(** The search of [exec]: the leftmost position with a match. *)
Fixpoint search (r : regex) (prev : option N) (s : text) : bool :=
  match match_at r prev s with
  | Some _ => true
  | None =>
      match s with
      | [] => false
      | c :: s' => search r (Some c) s'
      end
  end.

(** [String.prototype.match] with the [g] flag, as the number of matches:
    after a match the search resumes where it ended, one further when the
    match was empty.  [skip] counts the characters still inside the last
    match. *)
Fixpoint count_matches (r : regex) (prev : option N) (s : text) (skip : nat)
  : nat :=
  match s with
  | [] =>
      match skip, match_at r prev [] with
      | O, Some _ => 1%nat
      | _, _ => 0%nat
      end
  | c :: s' =>
      match skip with
      | S n => count_matches r (Some c) s' n
      | O =>
          match match_at r prev s with
          | Some rest =>
              S (count_matches r (Some c) s'
                   (List.length s - List.length rest - 1))
          | None => count_matches r (Some c) s' 0
          end
      end
  end.

(** [String.prototype.split] with a pattern separator and no limit, for a
    non-empty input: [cur] is the piece being read, reversed. *)
Fixpoint split_from (r : regex) (prev : option N) (s : text) (skip : nat)
  (cur : text) : list text :=
  match s with
  | [] => [rev cur]
  | c :: s' =>
      match skip with
      | S n => split_from r (Some c) s' n cur
      | O =>
          match match_at r prev s with
          | None => split_from r (Some c) s' 0 (c :: cur)
          | Some rest =>
              match (List.length s - List.length rest)%nat with
              | O =>
                  match cur with
                  | [] => split_from r (Some c) s' 0 [c]
                  | _ => rev cur :: split_from r (Some c) s' 0 [c]
                  end
              | S n => rev cur :: split_from r (Some c) s' n []
              end
          end
      end
  end.
End Matcher.

(** With the [u] flag a pattern is matched against code points: a leading
    surrogate followed by a trailing one is one character. *)
Definition is_lead (c : N) : bool := between 55296 56319 c.
Definition is_trail (c : N) : bool := between 56320 57343 c.

Fixpoint codePoints (s : text) : list N :=
  match s with
  | [] => []
  | c :: s' =>
      match s' with
      | d :: s'' =>
          if is_lead c && is_trail d
          then ((c - 55296) * 1024 + (d - 56320) + 65536)%N :: codePoints s''
          else c :: codePoints s'
      | [] => [c]
      end
  end.

(** [RegExp.prototype.test] of a pattern without the [g] flag. *)
Definition test (re : RegExp) (s : text) : bool :=
  search (ignoreCase re) (source re) None
    (if unicode re then codePoints s else s).

(** [(s.match(re) || []).length] for a pattern with the [g] flag. *)
Definition match_count (re : RegExp) (s : text) : Z :=
  Z.of_nat (count_matches (ignoreCase re) (source re) None s 0).

(** [s.split(re)]. *)
Definition split (re : RegExp) (s : text) : list text :=
  match s with
  | [] =>
      match match_at (ignoreCase re) (source re) None [] with
      | Some _ => []
      | None => [[]]
      end
  | _ => split_from (ignoreCase re) (source re) None s 0 []
  end.

(** [trim], [includes] of one character, [substring(0, n)]. *)
Fixpoint trimStart (s : text) : text :=
  match s with
  | c :: s' => if is_space c then trimStart s' else s
  | [] => []
  end.

Definition trim (s : text) : text := rev (trimStart (rev (trimStart s))).

Definition includes (s : text) (c : N) : bool := existsb (N.eqb c) s.

Definition substring0 (n : nat) (s : text) : text := firstn n s.

Fixpoint text_eqb (a b : text) : bool :=
  match a, b with
  | [], [] => true
  | x :: a', y :: b' => (x =? y)%N && text_eqb a' b'
  | _, _ => false
  end.

(** Template literals and [+] on a string and an integer. *)
Definition string_of_Z (z : Z) : string := NilZero.string_of_int (Z.to_int z).

(** *** Numbers: IEEE-754 binary64 *)

Definition Number := spec_float.
Definition prec : Z := 53.
Definition emax : Z := 1024.

Definition of_Z (z : Z) : Number := binary_normalize prec emax z 0 false.
Definition add : Number -> Number -> Number := SFadd prec emax.
Definition mul : Number -> Number -> Number := SFmul prec emax.
Definition div : Number -> Number -> Number := SFdiv prec emax.

(** A decimal literal [n / 10^d] of the source denotes the double nearest
    to it, which is the correctly rounded quotient of two integers. *)
Definition decimal (n : Z) (d : Z) : Number := div (of_Z n) (of_Z (10 ^ d)).

(** [Math.round]: the nearest integer, a tie going towards +infinity. *)
Definition Math_round (x : Number) : Number :=
  match x with
  | S754_finite s m e =>
      let v := if s then Z.neg m else Z.pos m in
      let n := if 0 <=? e then v * 2 ^ e
               else (2 * v + 2 ^ (- e)) / 2 ^ (1 - e) in
      if n =? 0 then S754_zero s else of_Z n
  | _ => x
  end.

(** *** Objects used as maps

    The word counter of the repetition check is an object literal [{}]: a
    read of a key it does not own falls through to [Object.prototype]. *)

Inductive value : Type :=
| VUndefined
| VNumber (n : Z)
| VString        (* a string that does not read as a number *)
| VObject.       (* a function or object inherited from the prototype *)

(** Own properties, in insertion order. *)
Definition object := list (text * value).

Definition prototype_keys : list text :=
  map lit ["constructor"; "__defineGetter__"; "__defineSetter__";
           "hasOwnProperty"; "__lookupGetter__"; "__lookupSetter__";
           "isPrototypeOf"; "propertyIsEnumerable"; "toString"; "valueOf";
           "__proto__"; "toLocaleString"]%string.

Fixpoint own (o : object) (k : text) : option value :=
  match o with
  | [] => None
  | (k', v) :: o' => if text_eqb k k' then Some v else own o' k
  end.

Definition get (o : object) (k : text) : value :=
  match own o k with
  | Some v => v
  | None => if existsb (text_eqb k) prototype_keys then VObject else VUndefined
  end.

Fixpoint put (o : object) (k : text) (v : value) : object :=
  match o with
  | [] => [(k, v)]
  | (k', v') :: o' =>
      if text_eqb k k' then (k', v) :: o' else (k', v') :: put o' k v
  end.

(** [o[k] = v] for a primitive [v]: the [__proto__] setter ignores it, any
    other key becomes (or stays) an own property. *)
Definition set (o : object) (k : text) (v : value) : object :=
  if text_eqb k (lit "__proto__") then o else put o k v.

(** [(x || 0) + 1]. *)
Definition or0_plus1 (x : value) : value :=
  match x with
  | VUndefined => VNumber 1
  | VNumber n => if n =? 0 then VNumber 1 else VNumber (n + 1)
  | VString => VString
  | VObject => VString
  end.

Definition values (o : object) : list value := map snd o.

(** [Math.max(...vs)]. *)
Inductive extremum : Type := NegInfinity | NaN | Finite (n : Z).

Definition max_step (m : extremum) (v : value) : extremum :=
  match m, v with
  | NaN, _ => NaN
  | _, VNumber n =>
      match m with Finite k => Finite (Z.max k n) | _ => Finite n end
  | _, _ => NaN
  end.

Definition Math_max (vs : list value) : extremum :=
  fold_left max_step vs NegInfinity.

Definition gt (m : extremum) (n : Z) : bool :=
  match m with Finite k => n <? k | _ => false end.

End JS.

(* ================================================================= *)
(** ** The engine: data model *)

Import JS.
Local Open Scope string_scope.
Local Open Scope list_scope.
Local Open Scope Z_scope.

Record Factor : Type := mkFactor {
  f_signal : string;
  f_impact : string;
  f_reason : string
}.

Record Warning : Type := mkWarning {
  w_type : string;
  w_risk : option string;
  w_message : string
}.

Record Recommendation : Type := mkRecommendation {
  priority : string;
  action : string;
  algorithmBenefit : string;
  example : string
}.

(** [results.scores]: an object whose fields are set by the passes; a field
    not set yet reads as [undefined]. *)
Record Scores : Type := mkScores {
  contentQuality : option Z;
  format : option Z;
  safety : option Z;
  overall : option Number
}.

(** [results.predictions]: the keys in insertion order. *)
Definition Predictions := list (string * Z).

Record AnalysisResult : Type := mkResult {
  text_of : text;
  charCount : Z;
  wordCount : Z;
  scores : Scores;
  predictions : Predictions;
  factors : list Factor;
  recommendations : list Recommendation;
  warnings : list Warning
}.

Record Options : Type := mkOptions {
  mediaType : option string;
  goal : option string;
  hasLink : option bool
}.

(** The empty options object [{}]. *)
Definition no_options : Options := mkOptions None None None.

Definition with_scores (r : AnalysisResult) (s : Scores) : AnalysisResult :=
  mkResult (text_of r) (charCount r) (wordCount r) s (predictions r)
           (factors r) (recommendations r) (warnings r).

Definition with_predictions (r : AnalysisResult) (p : Predictions)
  : AnalysisResult :=
  mkResult (text_of r) (charCount r) (wordCount r) (scores r) p
           (factors r) (recommendations r) (warnings r).

Definition with_recommendations (r : AnalysisResult)
  (l : list Recommendation) : AnalysisResult :=
  mkResult (text_of r) (charCount r) (wordCount r) (scores r) (predictions r)
           (factors r) l (warnings r).

(** [results.factors.push(f)] and [results.warnings.push(w)]. *)
Definition push_factor (r : AnalysisResult) (f : Factor) : AnalysisResult :=
  mkResult (text_of r) (charCount r) (wordCount r) (scores r) (predictions r)
           (factors r ++ [f]) (recommendations r) (warnings r).

Definition push_warning (r : AnalysisResult) (w : Warning) : AnalysisResult :=
  mkResult (text_of r) (charCount r) (wordCount r) (scores r) (predictions r)
           (factors r) (recommendations r) (warnings r ++ [w]).

(** [predictions[key]]; a missing key reads as [undefined]. *)
Fixpoint prediction (p : Predictions) (key : string) : option Z :=
  match p with
  | [] => None
  | (k, v) :: p' => if String.eqb k key then Some v else prediction p' key
  end.

(** [x < n] for a possibly undefined [x]: [undefined < n] is false. *)
Definition lt_num (x : option Z) (n : Z) : bool :=
  match x with Some v => v <? n | None => false end.

(** [x || d] for a possibly undefined number. *)
Definition or_default (x : option Z) (d : Z) : Z :=
  match x with
  | Some v => if v =? 0 then d else v
  | None => d
  end.

Record Variant : Type := mkVariant {
  v_type : string;
  content : text;
  changes : list string;
  expectedImpact : string
}.

(** The outcome of a call: a value, or a thrown [TypeError]. *)
Inductive completion (A : Type) : Type :=
| Normal (a : A)
| TypeError.
Arguments Normal {A} a.
Arguments TypeError {A}.

(* ================================================================= *)
(** ** The rule table [PATTERNS] *)

Record Booster : Type := mkBooster {
  pattern : RegExp;
  weight : Z;
  reason : string
}.

Record NegativeTrigger : Type := mkNegative {
  n_pattern : RegExp;
  n_weight : Z;
  n_signal : string;
  n_reason : string
}.

Record MutedRisk : Type := mkMuted {
  m_pattern : RegExp;
  m_risk : string;
  m_reason : string
}.

Record SpamIndicator : Type := mkSpam {
  check : text -> bool;
  s_weight : Z;
  s_reason : string
}.

(** [(w|w1|...|wn)] over literal alternatives. *)
Fixpoint alt (r : regex) (rs : list regex) : regex :=
  match rs with
  | [] => r
  | r' :: rs' => RAlt r (alt r' rs')
  end.

Definition phrases (w : string) (ws : list string) : regex :=
  alt (RStr (lit w)) (map (fun x => RStr (lit x)) ws).

(** [/\b(w|w1|...)\b/i]. *)
Definition bounded_i (w : string) (ws : list string) : RegExp :=
  mkRegExp (RSeq RWordB (RSeq (phrases w ws) RWordB)) true false.

Definition replyBoosters : list Booster :=
  [ mkBooster (mkRegExp (RStr (lit "?")) false false) 12
      "Questions trigger reply behavior";
    mkBooster (bounded_i "what do you think"
                 ["thoughts?"; "agree?"; "disagree?"])
      8 "Direct conversation invitations";
    mkBooster (bounded_i "hot take" ["unpopular opinion"]) 6
      "Debate-starting language" ].

Definition clickBoosters : list Booster :=
  [ mkBooster (bounded_i "check out" ["try"; "join"; "see"; "discover";
                 "explore"; "grab"; "get"; "claim"; "learn more"]) 8
      "Call-to-action verbs";
    mkBooster (bounded_i "link in bio" ["link below"]) 5 "Link reference" ].

Definition favoriteBoosters : list Booster :=
  [ mkBooster (bounded_i "excited" ["huge"; "incredible"; "amazing";
                 "finally"; "love"]) 7 "Emotional resonance";
    mkBooster (mkRegExp (RSet (between 127744 129535)) false true) 4
      "Emoji engagement" ].

Definition shareBoosters : list Booster :=
  [ mkBooster (bounded_i "thread" ["breakdown"; "guide"; "tips"; "how to"]) 8
      "Shareable educational content";
    mkBooster (bounded_i "announcement" ["introducing"; "launching";
                 "releasing"]) 6 "News-worthy content" ].

Definition followBoosters : list Booster :=
  [ mkBooster (bounded_i "we" ["our"; "community"; "fam"; "frens"]) 6
      "Community language";
    mkBooster (bounded_i "gm" []) 4 "GM culture participation";
    mkBooster (bounded_i "building" ["shipping"; "working on"]) 5
      "Builder credibility" ].

Definition negativeTriggers : list NegativeTrigger :=
  [ mkNegative (bounded_i "buy now" ["limited time"; "act now"; "dont miss"])
      (-15) "P(not_interested)" "Hard sell language";
    mkNegative (bounded_i "100x" ["guaranteed"; "free money"; "get rich"])
      (-20) "P(report)" "Scam-associated language";
    mkNegative (bounded_i "like if" ["rt if"; "retweet to"; "follow for";
                  "drop a"]) (-12) "P(not_interested)" "Engagement bait" ].

Definition mutedRiskPatterns : list MutedRisk :=
  [ mkMuted (bounded_i "airdrop" ["whitelist"; "presale"]) "high"
      "Commonly muted crypto terms";
    mkMuted (bounded_i "mint price" ["floor price"; "paper hands";
               "diamond hands"]) "medium" "NFT jargon" ].

(* ================================================================= *)
(** ** The engine: analysis passes *)

Section Engine.

(** [String.prototype.toLowerCase].  Its Unicode case tables belong to the
    runtime; the engine is modelled over any such mapping. *)
Variable toLowerCase : text -> text.

(** [/#\w+/g], [/[A-Z]/g] and [/\s+/]. *)
Definition hashtag_re : RegExp :=
  mkRegExp (RSeq (RStr (lit "#")) (RPlus is_word)) false false.
Definition upper_re : RegExp := mkRegExp (RSet is_upper) false false.
Definition spaces_re : RegExp := mkRegExp (RPlus is_space) false false.

Definition excessive_hashtags (t : text) : bool :=
  match_count hashtag_re t >? 3.

Definition excessive_caps (t : text) : bool :=
  SFltb (decimal 5 1)
    (div (of_Z (match_count upper_re t)) (of_Z (Z.max (length t) 1))).

(** [words.forEach(w => freq[w.toLowerCase()] =
      (freq[w.toLowerCase()] || 0) + 1)]. *)
Definition count_word (freq : object) (w : text) : object :=
  set freq (toLowerCase w) (or0_plus1 (get freq (toLowerCase w))).

Definition word_repetition (t : text) : bool :=
  let words := split spaces_re t in
  let freq := fold_left count_word words [] in
  gt (Math_max (values freq)) 3 && (Z.of_nat (List.length words) >? 10).

Definition spamIndicators : list SpamIndicator :=
  [ mkSpam excessive_hashtags (-8) "Excessive hashtags";
    mkSpam excessive_caps (-10) "Excessive caps";
    mkSpam word_repetition (-8) "Word repetition" ].

(** One turn of a [forEach] over a booster category. *)
Definition boost (signal : string) (t : text) (acc : Z * AnalysisResult)
  (b : Booster) : Z * AnalysisResult :=
  if test (pattern b) t
  then (fst acc + weight b,
        push_factor (snd acc)
          (mkFactor signal ("+" ++ string_of_Z (weight b))%string (reason b)))
  else acc.

(** [predictions[key] = v]. *)
Fixpoint set_prediction (p : Predictions) (key : string) (v : Z)
  : Predictions :=
  match p with
  | [] => [(key, v)]
  | (k, v') :: p' =>
      if String.eqb k key then (k, v) :: p'
      else (k, v') :: set_prediction p' key v
  end.

Definition analyzePredictions (t : text) (results : AnalysisResult)
  : AnalysisResult :=
  let predictions : Predictions := [] in
  let (replyScore, results) :=
    fold_left (boost "P(reply)" t) replyBoosters (30, results) in
  let predictions :=
    set_prediction predictions "P(reply)" (Z.min 100 replyScore) in
  let (favoriteScore, results) :=
    fold_left (boost "P(favorite)" t) favoriteBoosters (40, results) in
  let predictions :=
    set_prediction predictions "P(favorite)" (Z.min 100 favoriteScore) in
  let (clickScore, results) :=
    fold_left (boost "P(click)" t) clickBoosters (25, results) in
  let predictions :=
    set_prediction predictions "P(click)" (Z.min 100 clickScore) in
  let (shareScore, results) :=
    fold_left (boost "P(repost)" t) shareBoosters (20, results) in
  let predictions :=
    set_prediction predictions "P(repost)" (Z.min 100 shareScore) in
  let (followScore, results) :=
    fold_left (boost "P(follow_author)" t) followBoosters (25, results) in
  let predictions :=
    set_prediction predictions "P(follow_author)" (Z.min 100 followScore) in
  with_predictions results predictions.

Definition informational_re : RegExp :=
  bounded_i "new" ["update"; "launch"; "feature"; "announcing"; "introducing"].
Definition digits_re : RegExp := mkRegExp (RPlus is_digit) false false.
Definition hook_re : RegExp :=
  mkRegExp (RSeq RBol (phrases "NEW" ["BREAKING"; "HUGE"; "FINALLY"; "JUST";
                                     "INTRODUCING"])) true false.

Definition set_contentQuality (r : AnalysisResult) (v : Z) : AnalysisResult :=
  with_scores r (mkScores (Some v) (format (scores r)) (safety (scores r))
                          (overall (scores r))).
Definition set_format (r : AnalysisResult) (v : Z) : AnalysisResult :=
  with_scores r (mkScores (contentQuality (scores r)) (Some v)
                          (safety (scores r)) (overall (scores r))).
Definition set_safety (r : AnalysisResult) (v : Z) : AnalysisResult :=
  with_scores r (mkScores (contentQuality (scores r)) (format (scores r))
                          (Some v) (overall (scores r))).
Definition set_overall (r : AnalysisResult) (v : Number) : AnalysisResult :=
  with_scores r (mkScores (contentQuality (scores r)) (format (scores r))
                          (safety (scores r)) (Some v)).

Definition analyzeContentQuality (t : text) (results : AnalysisResult)
  : AnalysisResult :=
  let qualityScore := 60 in
  let (qualityScore, results) :=
    if test informational_re t
    then (qualityScore + 10,
          push_factor results
            (mkFactor "Content value" "+10" "Informational content"))
    else (qualityScore, results) in
  let (qualityScore, results) :=
    if test digits_re t
    then (qualityScore + 8,
          push_factor results
            (mkFactor "Specificity" "+8" "Contains specific numbers/data"))
    else (qualityScore, results) in
  let hook := substring0 120 t in
  let (qualityScore, results) :=
    if test hook_re hook
    then (qualityScore + 8,
          push_factor results
            (mkFactor "Hook strength" "+8" "Strong opening word"))
    else (qualityScore, results) in
  set_contentQuality results (Z.max 0 (Z.min 100 qualityScore)).

Definition negative_step (t : text) (acc : Z * AnalysisResult)
  (n : NegativeTrigger) : Z * AnalysisResult :=
  if test (n_pattern n) t
  then (fst acc + n_weight n,
        push_warning
          (push_factor (snd acc)
             (mkFactor (n_signal n) (string_of_Z (n_weight n)) (n_reason n)))
          (mkWarning (n_signal n) None (n_reason n)))
  else acc.

Definition spam_step (t : text) (acc : Z * AnalysisResult)
  (s : SpamIndicator) : Z * AnalysisResult :=
  if check s t
  then (fst acc + s_weight s,
        push_warning
          (push_factor (snd acc)
             (mkFactor "Spam risk" (string_of_Z (s_weight s)) (s_reason s)))
          (mkWarning "spam" None (s_reason s)))
  else acc.

Definition muted_step (t : text) (results : AnalysisResult) (m : MutedRisk)
  : AnalysisResult :=
  if test (m_pattern m) t
  then push_warning results
         (mkWarning "MutedKeywordFilter risk" (Some (m_risk m)) (m_reason m))
  else results.

Definition analyzeNegativeSignals (t : text) (results : AnalysisResult)
  : AnalysisResult :=
  let safetyScore := 100 in
  let (safetyScore, results) :=
    fold_left (negative_step t) negativeTriggers (safetyScore, results) in
  let (safetyScore, results) :=
    fold_left (spam_step t) spamIndicators (safetyScore, results) in
  let results := fold_left (muted_step t) mutedRiskPatterns results in
  set_safety results (Z.max 0 safetyScore).

Definition analyzeFormat (t : text) (options : Options)
  (results : AnalysisResult) : AnalysisResult :=
  let formatScore := 50 in
  let mediaType :=
    match mediaType options with Some m => m | None => "none" end in
  let (formatScore, results) :=
    if (100 <=? length t) && (length t <=? 200)
    then (formatScore + 10,
          push_factor results
            (mkFactor "Length" "+10" "Optimal length (100-200 chars)"))
    else if length t <? 50
    then (formatScore - 5,
          push_warning results
            (mkWarning "length" None "Very short - may lack context"))
    else (formatScore, results) in
  let (formatScore, results) :=
    if String.eqb mediaType "video"
    then (formatScore + 20,
          push_factor results (mkFactor "P(video_view)" "+20" "Video content"))
    else if String.eqb mediaType "image"
    then (formatScore + 15,
          push_factor results (mkFactor "P(photo_expand)" "+15" "Image content"))
    else if String.eqb mediaType "thread"
    then (formatScore + 10,
          push_factor results (mkFactor "P(dwell)" "+10" "Thread format"))
    else (formatScore, results) in
  set_format results (Z.min 100 formatScore).

(** The [weights] object of [calculateOverallScore]. *)
Definition weights_predictions : Number := decimal 5 1.
Definition weights_contentQuality : Number := decimal 2 1.
Definition weights_format : Number := decimal 15 2.
Definition weights_safety : Number := decimal 15 2.

Definition calculateOverallScore (results : AnalysisResult) : AnalysisResult :=
  let predictionValues := map snd (predictions results) in
  let avgPrediction :=
    div (fold_left (fun a b => add a (of_Z b)) predictionValues (of_Z 0))
        (of_Z (Z.of_nat (List.length predictionValues))) in
  set_overall results
    (Math_round
       (add (add (add (mul avgPrediction weights_predictions)
                      (mul (of_Z (or_default (contentQuality (scores results)) 50))
                           weights_contentQuality))
                 (mul (of_Z (or_default (format (scores results)) 50))
                      weights_format))
            (mul (of_Z (or_default (safety (scores results)) 100))
                 weights_safety))).

Definition dq : string := String (ascii_of_nat 34) EmptyString.

Definition rec_question : Recommendation :=
  mkRecommendation "high" "Add a question"
    "Increases P(reply) prediction from Phoenix ranking model"
    ("End with " ++ dq ++ "Thoughts?" ++ dq ++ " or " ++ dq
       ++ "What would you add?" ++ dq)%string.

Definition rec_cta : Recommendation :=
  mkRecommendation "medium" "Add a soft call-to-action"
    "Boosts P(click) and P(profile_click) in weighted scoring"
    ("Try " ++ dq ++ "Check out..." ++ dq ++ ", " ++ dq ++ "See more..." ++ dq
       ++ ", or " ++ dq ++ "Explore..." ++ dq)%string.

Definition rec_share : Recommendation :=
  mkRecommendation "medium" "Add shareable value"
    "Increases P(repost) and P(share) predictions"
    "Include a tip, insight, or announcement worth sharing".

Definition rec_thread : Recommendation :=
  mkRecommendation "low" "Consider thread format"
    "Long-form content performs better as threads, increasing P(dwell)"
    "Break into 2-4 connected tweets".

Definition rec_community : Recommendation :=
  mkRecommendation "low" "Add community language"
    "Increases P(follow_author) prediction"
    ("Use " ++ dq ++ "we" ++ dq ++ ", " ++ dq ++ "our community" ++ dq
       ++ ", or inclusive language")%string.

Definition question_re : RegExp := mkRegExp (RStr (lit "?")) false false.

(** [options.mediaType !== 'thread']. *)
Definition not_thread (options : Options) : bool :=
  match mediaType options with
  | Some m => negb (String.eqb m "thread")
  | None => true
  end.

Definition generateRecommendations (results : AnalysisResult)
  (options : Options) : AnalysisResult :=
  let recs : list Recommendation := [] in
  let recs :=
    if lt_num (prediction (predictions results) "P(reply)") 50
       && negb (test question_re (text_of results))
    then recs ++ [rec_question] else recs in
  let recs :=
    if lt_num (prediction (predictions results) "P(click)") 40
    then recs ++ [rec_cta] else recs in
  let recs :=
    if lt_num (prediction (predictions results) "P(repost)") 40
    then recs ++ [rec_share] else recs in
  let recs :=
    if (length (text_of results) >? 250) && not_thread options
    then recs ++ [rec_thread] else recs in
  let recs :=
    if lt_num (prediction (predictions results) "P(follow_author)") 40
    then recs ++ [rec_community] else recs in
  with_recommendations results recs.

Definition nonempty (w : text) : bool :=
  match w with [] => false | _ => true end.

Definition analyzePost (t : text) (options : Options) : AnalysisResult :=
  let results :=
    mkResult t (length t)
      (Z.of_nat (List.length (filter nonempty (split spaces_re t))))
      (mkScores None None None None) [] [] [] [] in
  let results := analyzePredictions t results in
  let results := analyzeContentQuality t results in
  let results := analyzeNegativeSignals t results in
  let results := analyzeFormat t options results in
  let results := calculateOverallScore results in
  let results := generateRecommendations results options in
  results.

(* ================================================================= *)
(** ** The engine: variants *)

Definition qmark : N := 63.

Definition getChanges (original modified : text) : list string :=
  let changes : list string := [] in
  let changes :=
    if includes modified qmark && negb (includes original qmark)
    then changes ++ ["Added question"] else changes in
  let changes :=
    if length modified >? length original + 10
    then changes ++ ["Added engagement hook"] else changes in
  let changes :=
    match changes with
    | [] => changes ++ ["Structure optimized"]
    | _ => changes
    end in
  changes.

Definition sentence_end_re : RegExp :=
  mkRegExp (RPlus (fun c => (c =? 46)%N || (c =? 33)%N || (c =? 63)%N))
           false false.

(** The literals of the source that are not ASCII, as the code units the
    file holds. *)
Definition conv_suffix : text :=
  [10; 10]%N ++ lit "What would you add? " ++ [240; 376; 8216; 8225]%N.
Definition short_suffix : text :=
  lit "." ++ [10; 10]%N ++ lit "More soon " ++ [240; 376; 8216; 8364]%N.
Definition thread_prefix : text := [240; 376; 167; 181; 32]%N.

(** [Math.ceil(n / 2)] for a length [n]. *)
Definition ceil_half (n : Z) : Z := (n + 1) / 2.

Definition generateOptimizedVariants (t : text) (analysis : AnalysisResult)
  (options : Options) : completion (list Variant) :=
  let variants : list Variant := [] in
  let primary := trim t in
  let primary :=
    if lt_num (prediction (predictions analysis) "P(reply)") 50
       && negb (includes t qmark)
    then primary ++ [10; 10]%N ++ lit "Thoughts?" else primary in
  let variants :=
    variants ++ [mkVariant "Primary Optimized" primary (getChanges t primary)
                   "Balanced optimization for engagement"] in
  let convVariant := trim t ++ conv_suffix in
  let variants :=
    variants ++ [mkVariant "Conversation Starter" convVariant
                   ["Added direct reply invitation"]
                   "Significantly increases P(reply)"] in
  let sentences :=
    filter (fun s => nonempty (trim s)) (split sentence_end_re t) in
  let variants :=
    match sentences with
    | s0 :: _ :: _ =>
        variants ++ [mkVariant "Short & Punchy" (trim s0 ++ short_suffix)
                       ["Condensed to hook only"; "Added curiosity tease"]
                       "Higher completion rate, builds anticipation"]
    | _ => variants
    end in
  if length t >? 150
  then
    match sentences with
    | [] => TypeError
    | s0 :: _ =>
        Normal
          (variants ++
             [mkVariant "Thread Opener"
                (thread_prefix ++ trim s0 ++ [10; 10]%N ++ lit "(1/"
                   ++ lit (string_of_Z
                             (ceil_half (Z.of_nat (List.length sentences))))
                   ++ lit ")")
                ["Reformatted as thread"; "Added thread markers"]
                "Increases P(click), P(dwell) for long-form"])
    end
  else Normal variants.

End Engine.

(* ================================================================= *)
(** ** The engine: posting strategy *)

Record TimingSlot : Type := mkTiming {
  time : string;
  t_reason : string
}.

Record FollowUp : Type := mkFollowUp {
  fu_timing : string;
  fu_action : string;
  fu_reason : string
}.

Record Strategy : Type := mkStrategy {
  s_format : string;
  formatReason : string;
  linkStrategy : option string;      (* [None] is [null] *)
  linkReason : string;
  timing : list TimingSlot;
  followUp : list FollowUp
}.

(** [if (hasLink)]: the truthiness of a possibly missing boolean. *)
Definition truthy (b : option bool) : bool :=
  match b with Some true => true | _ => false end.

(** [goal === 'traffic']. *)
Definition is_traffic (options : Options) : bool :=
  match goal options with
  | Some g => String.eqb g "traffic"
  | None => false
  end.

(** [mediaType === 'video']. *)
Definition is_video (options : Options) : bool :=
  match mediaType options with
  | Some m => String.eqb m "video"
  | None => false
  end.

Definition generatePostingStrategy (analysis : AnalysisResult)
  (options : Options) : Strategy :=
  let strategy := mkStrategy "single" EmptyString None EmptyString [] [] in
  let strategy :=
    if (JS.length (text_of analysis) >? 200) && not_thread options
    then mkStrategy "thread"
           "Content length suggests thread format for better engagement"
           (linkStrategy strategy) (linkReason strategy)
           (timing strategy) (followUp strategy)
    else if is_video options
    then mkStrategy "single"
           "Video content performs best as standalone post"
           (linkStrategy strategy) (linkReason strategy)
           (timing strategy) (followUp strategy)
    else mkStrategy "single" "Standard single post format"
           (linkStrategy strategy) (linkReason strategy)
           (timing strategy) (followUp strategy) in
  let strategy :=
    if truthy (hasLink options)
    then
      if is_traffic options
      then mkStrategy (s_format strategy) (formatReason strategy)
             (Some "reply-link")
             "Put link in first reply to maximize main post reach while still driving clicks"
             (timing strategy) (followUp strategy)
      else mkStrategy (s_format strategy) (formatReason strategy)
             (Some "bio-link")
             ("Use " ++ dq ++ "link in bio" ++ dq
                ++ " to keep post clean for better in-feed performance")%string
             (timing strategy) (followUp strategy)
    else strategy in
  let strategy :=
    mkStrategy (s_format strategy) (formatReason strategy)
      (linkStrategy strategy) (linkReason strategy)
      [ mkTiming "7-9am EST" "Peak morning engagement for US audiences";
        mkTiming "12-1pm EST" "Lunch break scrolling peak";
        mkTiming "6-8pm EST" "Evening wind-down peak" ]
      (followUp strategy) in
  let strategy :=
    mkStrategy (s_format strategy) (formatReason strategy)
      (linkStrategy strategy) (linkReason strategy) (timing strategy)
      [ mkFollowUp "0-15 min" "Reply to early commenters"
          "Early velocity signals quality";
        mkFollowUp "30 min" "Quote tweet with additional context"
          "Creates second entry point";
        mkFollowUp "2-4 hours" "Share related follow-up"
          "Maintains topic momentum" ] in
  strategy.

(* ================================================================= *)
(** ** Definitions used to state the properties *)

(** [toLowerCase] on ASCII text. *)
Definition asciiLower (s : text) : text :=
  map (fun c => if is_upper c then (c + 32)%N else c) s.

(** The character before a position, after reading [w] from a position
    whose preceding character was [prev]. *)
Definition advance (prev : option N) (w : text) : option N :=
  fold_left (fun _ c => Some c) w prev.

(** What a pattern matches: [matches ic r prev w rest] says that [r] can
    consume exactly [w] at a position preceded by [prev], when [rest] is
    what follows [w] in the input. *)
Fixpoint matches (ic : bool) (r : regex) (prev : option N) (w rest : text)
  : Prop :=
  match r with
  | RStr x => Forall2 (fun p c => char_eq ic p c = true) x w
  | RSet p => exists c, w = [c] /\ p c = true
  | RPlus p => w <> [] /\ forallb p w = true
  | RSeq r1 r2 =>
      exists w1 w2, w = w1 ++ w2 /\ matches ic r1 prev w1 (w2 ++ rest)
                    /\ matches ic r2 (advance prev w1) w2 rest
  | RAlt r1 r2 => matches ic r1 prev w rest \/ matches ic r2 prev w rest
  | RWordB =>
      w = [] /\ xorb (is_word_opt prev) (is_word_opt (hd_error rest)) = true
  | RBol => w = [] /\ prev = None
  end.

Definition Zsum (l : list Z) : Z := fold_right Z.add 0 l.

(** The rules of a category whose pattern matches the text. *)
Definition matching (t : text) (l : list Booster) : list Booster :=
  filter (fun b => test (pattern b) t) l.

(** The value of one prediction: the baseline plus the weights of the
    matching rules of the category, capped at 100. *)
Definition prediction_value (baseline : Z) (l : list Booster) (t : text) : Z :=
  Z.min 100 (baseline + Zsum (map weight (matching t l))).

Definition predictions_value (t : text) : Predictions :=
  [ ("P(reply)", prediction_value 30 replyBoosters t);
    ("P(favorite)", prediction_value 40 favoriteBoosters t);
    ("P(click)", prediction_value 25 clickBoosters t);
    ("P(repost)", prediction_value 20 shareBoosters t);
    ("P(follow_author)", prediction_value 25 followBoosters t) ].

Definition quality_value (t : text) : Z :=
  Z.max 0 (Z.min 100
    (60 + (if test informational_re t then 10 else 0)
        + (if test digits_re t then 8 else 0)
        + (if test hook_re (substring0 120 t) then 8 else 0))).

Definition fired_triggers (t : text) : list NegativeTrigger :=
  filter (fun n => test (n_pattern n) t) negativeTriggers.

Definition fired_spam (lower : text -> text) (t : text) : list SpamIndicator :=
  filter (fun s => check s t) (spamIndicators lower).

Definition safety_value (lower : text -> text) (t : text) : Z :=
  Z.max 0 (100 + Zsum (map n_weight (fired_triggers t))
               + Zsum (map s_weight (fired_spam lower t))).

Definition media_of (o : Options) : string :=
  match mediaType o with Some m => m | None => "none" end.

Definition format_value (t : text) (o : Options) : Z :=
  Z.min 100
    (50 + (if (100 <=? length t) && (length t <=? 200) then 10
           else if length t <? 50 then -5 else 0)
        + (if String.eqb (media_of o) "video" then 20
           else if String.eqb (media_of o) "image" then 15
           else if String.eqb (media_of o) "thread" then 10 else 0)).

(** The number [calculateOverallScore] stores, as a function of what it
    reads. *)
Definition overall_from (sum : Number) (n : Z) (cq f s : option Z) : Number :=
  Math_round
    (add (add (add (mul (div sum (of_Z n)) weights_predictions)
                   (mul (of_Z (or_default cq 50)) weights_contentQuality))
              (mul (of_Z (or_default f 50)) weights_format))
         (mul (of_Z (or_default s 100)) weights_safety)).

Definition float_sum (vals : list Z) : Number :=
  fold_left (fun a b => add a (of_Z b)) vals (of_Z 0).

Definition overall_number (vals : list Z) (cq f s : option Z) : Number :=
  overall_from (float_sum vals) (Z.of_nat (List.length vals)) cq f s.

(** The aggregate as the specification words it, in exact arithmetic:
    [round(mean(predictions) * 0.5 + contentQuality * 0.2 + format * 0.15
    + safety * 0.15)], a missing score replaced by its default and a tie
    rounded up. *)
Definition mean (vals : list Z) : Q :=
  (inject_Z (Zsum vals) / inject_Z (Z.of_nat (List.length vals)))%Q.

Definition present (x : option Z) (d : Z) : Z :=
  match x with Some v => v | None => d end.

Definition round_half_up (q : Q) : Z := Qfloor (q + (1 # 2))%Q.

Definition spec_overall (vals : list Z) (cq f s : option Z) : Z :=
  round_half_up
    (mean vals * (5 # 10) + inject_Z (present cq 50) * (2 # 10)
     + inject_Z (present f 50) * (15 # 100)
     + inject_Z (present s 100) * (15 # 100))%Q.

(** The recommendations in the order of emission, each under its
    condition. *)
Definition when {A} (c : bool) (x : A) : list A := if c then [x] else [].

Definition recommendations_value (r : AnalysisResult) (o : Options)
  : list Recommendation :=
  when (lt_num (prediction (predictions r) "P(reply)") 50
        && negb (includes (text_of r) qmark)) rec_question
  ++ when (lt_num (prediction (predictions r) "P(click)") 40) rec_cta
  ++ when (lt_num (prediction (predictions r) "P(repost)") 40) rec_share
  ++ when ((length (text_of r) >? 250) && not_thread o) rec_thread
  ++ when (lt_num (prediction (predictions r) "P(follow_author)") 40)
       rec_community.

(** Two results that differ at most in the factors and warnings logged. *)
Definition same_data (r r' : AnalysisResult) : Prop :=
  text_of r' = text_of r /\ charCount r' = charCount r
  /\ wordCount r' = wordCount r /\ scores r' = scores r
  /\ predictions r' = predictions r
  /\ recommendations r' = recommendations r.

(** The weights of the rules of a category that match [t'] but not [t],
    and of those that match [t] but not [t']. *)
Definition gained (l : list Booster) (t t' : text) : Z :=
  Zsum (map weight
          (filter (fun b => test (pattern b) t' && negb (test (pattern b) t)) l)).

Definition lost (l : list Booster) (t t' : text) : Z :=
  Zsum (map weight
          (filter (fun b => test (pattern b) t && negb (test (pattern b) t')) l)).

(** How often a word occurs in a list of words. *)
Definition occurrences (w : text) (ws : list text) : nat :=
  List.length (filter (text_eqb w) ws).

(** The action and priority of each recommendation, in order. *)
Definition actions (l : list Recommendation) : list (string * string) :=
  map (fun x => (action x, priority x)) l.

Definition reply_of (r : AnalysisResult) : option Z :=
  prediction (predictions r) "P(reply)".

(** *** The values the scores can take

    Every score is a baseline plus the weights of the rules that fired, so
    it ranges over a small set; the aggregate is checked on all of them. *)

Definition subset_sums (ws : list Z) : list Z :=
  fold_right (fun w acc => acc ++ map (Z.add w) acc) [0] ws.

Definition add_lists (l1 l2 : list Z) : list Z :=
  nodup Z.eq_dec (flat_map (fun a => map (Z.add a) l2) l1).

Definition candidates (b : Z) (l : list Booster) : list Z :=
  nodup Z.eq_dec (map (fun x => Z.min 100 (b + x)) (subset_sums (map weight l))).

Definition replies : list Z := candidates 30 replyBoosters.
Definition favorites : list Z := candidates 40 favoriteBoosters.
Definition clicks : list Z := candidates 25 clickBoosters.
Definition reposts : list Z := candidates 20 shareBoosters.
Definition follows : list Z := candidates 25 followBoosters.

Definition sums : list Z :=
  add_lists replies
    (add_lists favorites (add_lists clicks (add_lists reposts follows))).

Definition qualities : list Z := [60; 68; 70; 76; 78; 86].
Definition formats : list Z := [45; 50; 55; 60; 65; 70; 75; 80].
Definition safeties : list Z :=
  nodup Z.eq_dec
    (flat_map
       (fun a => map (fun b => Z.max 0 (100 + a + b))
                   (subset_sums
                      (map s_weight (spamIndicators (fun w => w)))))
       (subset_sums (map n_weight negativeTriggers))).

(** Equality of two doubles as data. *)
Definition same_number (a b : Number) : bool :=
  match a, b with
  | S754_zero s, S754_zero s' => Bool.eqb s s'
  | S754_infinity s, S754_infinity s' => Bool.eqb s s'
  | S754_finite s m e, S754_finite s' m' e' =>
      Bool.eqb s s' && Pos.eqb m m' && Z.eqb e e'
  | _, _ => false
  end.

(** The aggregate in integers: [(2 * sum + 4 * cq + 3 * f + 3 * s) / 20],
    rounded to the nearest integer, a tie going up. *)
Definition exact_overall (sum cq f s : Z) : Z :=
  (2 * sum + 4 * cq + 3 * f + 3 * s + 10) / 20.

(** The check that the sum of five predictions in doubles is their sum.
    It is an abbreviation, so that a statement about it is a statement about
    the nested [forallb] itself. *)
Abbreviation sums_exact :=
  (forallb (fun a => let fa := add (of_Z 0) (of_Z a) in
    forallb (fun b => let fb := add fa (of_Z b) in
      forallb (fun c => let fc := add fb (of_Z c) in
        forallb (fun d => let fd := add fc (of_Z d) in
          forallb (fun e =>
            same_number (add fd (of_Z e)) (of_Z (a + (b + (c + (d + e))))))
            follows) reposts) clicks) favorites) replies).

Definition weighted (w : Number) (d : Z) (x : Z) : Z * Number :=
  (x, mul (of_Z (or_default (Some x) d)) w).

(** The check that the aggregate in doubles is the aggregate in integers,
    within [0,100], on every combination of scores. *)
Abbreviation overall_exact :=
  (let qs := map (weighted weights_contentQuality 50) qualities in
  let fs := map (weighted weights_format 50) formats in
  let ss := map (weighted weights_safety 100) safeties in
  forallb (fun sum =>
    let a := mul (div (of_Z sum) (of_Z 5)) weights_predictions in
    forallb (fun q => let ab := add a (snd q) in
      forallb (fun f => let abc := add ab (snd f) in
        forallb (fun s =>
          let k := exact_overall sum (fst q) (fst f) (fst s) in
          same_number (Math_round (add abc (snd s))) (of_Z k)
          && (0 <=? k) && (k <=? 100)) ss) fs) qs) sums).

(** Texts of the scenarios. *)
Definition scam_text : text := lit "100x guaranteed returns, buy now!".
Definition blank_text : text := repeat 32%N 151.
Definition repeated_text : text := lit "constructor a a a a b c d e f g".
Definition padded_text : text := lit " a a a a b c d e f ".

Definition trigger_summary (n : NegativeTrigger) : string * Z * string :=
  (n_reason n, n_weight n, n_signal n).

Definition spam_warnings (r : AnalysisResult) : list Warning :=
  filter (fun w => String.eqb (w_type w) "spam") (warnings r).

(** The two phrase patterns of the reply category. *)
Definition invitation_re : RegExp :=
  bounded_i "what do you think" ["thoughts?"; "agree?"; "disagree?"].
Definition debate_re : RegExp := bounded_i "hot take" ["unpopular opinion"].

Definition take_text : text := lit "hot take".
Definition glued_question : text := lit "s welcome?".
Definition spaced_question : text := lit " agree?".

(** *** The entries the passes log *)

Definition booster_factor (signal : string) (b : Booster) : Factor :=
  mkFactor signal ("+" ++ string_of_Z (weight b))%string (reason b).

Definition trigger_factor (n : NegativeTrigger) : Factor :=
  mkFactor (n_signal n) (string_of_Z (n_weight n)) (n_reason n).

Definition trigger_warning (n : NegativeTrigger) : Warning :=
  mkWarning (n_signal n) None (n_reason n).

Definition spam_factor (s : SpamIndicator) : Factor :=
  mkFactor "Spam risk" (string_of_Z (s_weight s)) (s_reason s).

Definition spam_warning (s : SpamIndicator) : Warning :=
  mkWarning "spam" None (s_reason s).

Definition muted_warning (m : MutedRisk) : Warning :=
  mkWarning "MutedKeywordFilter risk" (Some (m_risk m)) (m_reason m).

Definition fired_muted (t : text) : list MutedRisk :=
  filter (fun m => test (m_pattern m) t) mutedRiskPatterns.

Definition length_warning : Warning :=
  mkWarning "length" None "Very short - may lack context".

Definition prediction_factors (t : text) : list Factor :=
  map (booster_factor "P(reply)") (matching t replyBoosters)
  ++ map (booster_factor "P(favorite)") (matching t favoriteBoosters)
  ++ map (booster_factor "P(click)") (matching t clickBoosters)
  ++ map (booster_factor "P(repost)") (matching t shareBoosters)
  ++ map (booster_factor "P(follow_author)") (matching t followBoosters).

Definition quality_factors (t : text) : list Factor :=
  when (test informational_re t)
    (mkFactor "Content value" "+10" "Informational content")
  ++ when (test digits_re t)
       (mkFactor "Specificity" "+8" "Contains specific numbers/data")
  ++ when (test hook_re (substring0 120 t))
       (mkFactor "Hook strength" "+8" "Strong opening word").

Definition format_factors (t : text) (o : Options) : list Factor :=
  when ((100 <=? JS.length t) && (JS.length t <=? 200))
    (mkFactor "Length" "+10" "Optimal length (100-200 chars)")
  ++ (if String.eqb (media_of o) "video"
      then [mkFactor "P(video_view)" "+20" "Video content"]
      else if String.eqb (media_of o) "image"
      then [mkFactor "P(photo_expand)" "+15" "Image content"]
      else if String.eqb (media_of o) "thread"
      then [mkFactor "P(dwell)" "+10" "Thread format"]
      else []).

(** The number of positions of [t] that hold a [#] followed by a word
    character. *)
Fixpoint hashtags (t : text) : nat :=
  match t with
  | [] => 0
  | c :: t' =>
      ((if (c =? 35)%N && is_word_opt (hd_error t') then 1 else 0)
       + hashtags t')%nat
  end.

(** Texts that reach the two ends of the range of the aggregate. *)
Definition best_text : text :=
  lit "NEW thread announcement: we love building, gm! What do you think"
  ++ lit " of this hot take? Check out the link below for 5 tips. "
  ++ [55357; 56832]%N.
Definition worst_text : text :=
  lit "BUY NOW FREE MONEY LIKE IF A A A A #A #B #C #D".

(** *** Variants and strategy *)

(** The sentences [generateOptimizedVariants] keeps. *)
Definition sentences_of (t : text) : list text :=
  filter (fun s => nonempty (trim s)) (split sentence_end_re t).

Definition thoughts_suffix : text := [10; 10]%N ++ lit "Thoughts?".

Definition long_text : text := repeat 97%N 300.

(** *** Counting *)

Fixpoint drop_while (p : N -> bool) (s : text) : text :=
  match s with
  | c :: s' => if p c then drop_while p s' else s
  | [] => []
  end.

Definition total_length (l : list text) : nat :=
  fold_right (fun w n => (List.length w + n)%nat) 0%nat l.

(** A key that [Object.prototype] holds. *)
Definition inherited (k : text) : bool := existsb (text_eqb k) prototype_keys.

(** The keys the repetition check counts: the lower-cased pieces. *)
Definition counted_keys (lower : text -> text) (t : text) : list text :=
  map lower (split spaces_re t).

Definition above (n : Z) (v : value) : bool :=
  match v with VNumber k => n <? k | _ => false end.

(** The first variant on the text's own analysis. *)
Definition primary_content (t : text) : text :=
  if includes t qmark then trim t else trim t ++ thoughts_suffix.

Definition primary_changes (t : text) : list string :=
  if includes t qmark then ["Structure optimized"]
  else "Added question" :: when (text_eqb (trim t) t) "Added engagement hook".

(** The variants of "gm frens" on its own analysis. *)
Definition gm_variants : list Variant :=
  Eval vm_compute in
    match generateOptimizedVariants (lit "gm frens")
            (analyzePost asciiLower (lit "gm frens") no_options) no_options
    with
    | Normal vs => vs
    | TypeError => []
    end.

(** One turn of the word counter on a key. *)
Definition count_key (freq : object) (k : text) : object :=
  set freq k (or0_plus1 (get freq k)).

(** What the counter holds after the keys [seen]: numbers only, each at
    most the occurrences of its key, and the exact count under each key
    seen. *)
Definition counts (o : object) (seen : list text) : Prop :=
  (forall k v, In (k, v) o ->
     exists n, v = VNumber (Z.of_nat n)
               /\ (1 <= n <= occurrences k seen)%nat)
  /\ (forall k, In k seen ->
        own o k = Some (VNumber (Z.of_nat (occurrences k seen)))).

(** The check that, for a text of at most 280 code units, the ratio test
    of the caps check on doubles agrees with the comparison of integers. *)
Abbreviation caps_exact :=
  (let half := decimal 5 1 in
   forallb (fun n => let len := of_Z (Z.of_nat n) in
     forallb (fun c =>
       Bool.eqb (SFltb half (div (of_Z (Z.of_nat c)) len))
                (Z.of_nat n <? 2 * Z.of_nat c))
       (seq 0 (S n))) (seq 1 280)).

(** *** The format pass without a media bonus *)

Definition length_factor : Factor :=
  mkFactor "Length" "+10" "Optimal length (100-200 chars)".

(** What the length of the text adds to the format score. *)
Definition length_bonus (t : text) : Z :=
  if (100 <=? JS.length t) && (JS.length t <=? 200) then 10
  else if JS.length t <? 50 then -5 else 0.

(** The signals of the three media factors. *)
Definition media_signal (s : string) : bool :=
  String.eqb s "P(video_view)" || String.eqb s "P(photo_expand)"
  || String.eqb s "P(dwell)".

(* ================================================================= *)
(** ** The matcher against its specification *)

Section MatcherFacts.
Variable ic : bool.

Lemma advance_app prev w1 w2 :
  advance prev (w1 ++ w2) = advance (advance prev w1) w2.
Proof. unfold advance. apply fold_left_app. Qed.

Lemma advance_cons prev c w : advance prev (c :: w) = advance (Some c) w.
Proof. reflexivity. Qed.

Lemma str_match_sound x : forall prev s k out,
  str_match ic x prev s k = Some out ->
  exists w rest, s = w ++ rest
    /\ Forall2 (fun p c => char_eq ic p c = true) x w
    /\ k (advance prev w) rest = Some out.
Proof.
  induction x as [|p x IH]; intros prev s k out H; simpl in H.
  - exists [], s. repeat split; auto.
  - destruct s as [|c s']; [discriminate|].
    destruct (char_eq ic p c) eqn:E; [|discriminate].
    destruct (IH _ _ _ _ H) as (w & rest & -> & Hw & Hk).
    exists (c :: w), rest. repeat split; auto.
Qed.

Lemma str_match_complete x : forall prev w rest k out,
  Forall2 (fun p c => char_eq ic p c = true) x w ->
  k (advance prev w) rest = Some out ->
  str_match ic x prev (w ++ rest) k = Some out.
Proof.
  induction x as [|p x IH]; intros prev w rest k out Hw Hk;
    inversion Hw; subst; simpl.
  - exact Hk.
  - rewrite H1. apply IH; auto.
Qed.

Lemma plus_loop_sound p : forall s last k out,
  plus_loop p last s k = Some out ->
  exists w rest, s = w ++ rest /\ forallb p w = true
    /\ k (advance (Some last) w) rest = Some out.
Proof.
  induction s as [|c s IH]; intros last k out H; simpl in H.
  - exists [], []. auto.
  - destruct (p c) eqn:E.
    + destruct (plus_loop p c s k) eqn:E1; simpl in H.
      * inversion H; subst.
        destruct (IH _ _ _ E1) as (w & rest & -> & Hw & Hk).
        exists (c :: w), rest. simpl. rewrite E. auto.
      * exists [], (c :: s). auto.
    + exists [], (c :: s). auto.
Qed.

Lemma plus_loop_complete p : forall w last rest k out,
  forallb p w = true ->
  k (advance (Some last) w) rest = Some out ->
  exists out', plus_loop p last (w ++ rest) k = Some out'.
Proof.
  induction w as [|c w IH]; intros last rest k out Hw Hk; simpl in *.
  - destruct rest as [|d rest]; simpl; [eauto|].
    destruct (p d); [|eauto].
    destruct (plus_loop p d rest k); simpl; eauto.
  - apply andb_true_iff in Hw as [Hc Hw]. rewrite Hc.
    destruct (IH c rest k out Hw Hk) as [out' ->]. simpl. eauto.
Qed.

Lemma rmatch_sound r : forall prev s k out,
  rmatch ic r prev s k = Some out ->
  exists w rest, s = w ++ rest /\ matches ic r prev w rest
    /\ k (advance prev w) rest = Some out.
Proof.
  induction r as [x|p|p|r1 IH1 r2 IH2|r1 IH1 r2 IH2| |];
    intros prev s k out H; simpl in H.
  - apply str_match_sound in H as (w & rest & -> & Hw & Hk).
    exists w, rest. auto.
  - destruct s as [|c s]; [discriminate|].
    destruct (p c) eqn:E; [|discriminate].
    exists [c], s. simpl. eauto 6.
  - destruct s as [|c s]; [discriminate|].
    destruct (p c) eqn:E; [|discriminate].
    apply plus_loop_sound in H as (w & rest & -> & Hw & Hk).
    exists (c :: w), rest. simpl. rewrite E, Hw.
    repeat split; auto. discriminate.
  - apply IH1 in H as (w1 & rest1 & -> & H1 & H).
    apply IH2 in H as (w2 & rest & -> & H2 & Hk).
    exists (w1 ++ w2), rest. rewrite advance_app, app_assoc.
    repeat split; auto. simpl. eauto 6.
  - destruct (rmatch ic r1 prev s k) eqn:E; simpl in H.
    + inversion H; subst.
      apply IH1 in E as (w & rest & -> & Hm & Hk). exists w, rest.
      simpl. auto.
    + apply IH2 in H as (w & rest & -> & Hm & Hk). exists w, rest.
      simpl. auto.
  - destruct (xorb _ _) eqn:E; [|discriminate].
    exists [], s. simpl. auto.
  - destruct prev; [discriminate|]. exists [], s. simpl. auto.
Qed.

Lemma rmatch_complete r : forall prev w rest k out,
  matches ic r prev w rest ->
  k (advance prev w) rest = Some out ->
  exists out', rmatch ic r prev (w ++ rest) k = Some out'.
Proof.
  induction r as [x|p|p|r1 IH1 r2 IH2|r1 IH1 r2 IH2| |];
    intros prev w rest k out Hm Hk; simpl in Hm; simpl rmatch.
  - exists out. apply str_match_complete; auto.
  - destruct Hm as (c & -> & Hc). simpl. rewrite Hc. eauto.
  - destruct Hm as (Hne & Hw). destruct w as [|c w]; [congruence|].
    simpl in *. apply andb_true_iff in Hw as [Hc Hw]. rewrite Hc.
    eapply plus_loop_complete; eauto.
  - destruct Hm as (w1 & w2 & -> & H1 & H2).
    rewrite advance_app in Hk.
    destruct (IH2 _ _ _ _ _ H2 Hk) as [out2 E2].
    rewrite <- app_assoc. eapply IH1; eauto.
  - destruct Hm as [Hm|Hm].
    + destruct (IH1 _ _ _ _ _ Hm Hk) as [o ->]. simpl. eauto.
    + destruct (rmatch ic r1 prev (w ++ rest) k); simpl; [eauto|].
      eapply IH2; eauto.
  - destruct Hm as (-> & Hx). simpl in *. rewrite Hx. eauto.
  - destruct Hm as (-> & ->). simpl in *. eauto.
Qed.

(** [search] finds a match exactly when the input splits into a prefix,
    a word the pattern consumes there, and a rest. *)
Lemma search_spec r : forall s prev,
  search ic r prev s = true <->
  exists pre w rest, s = pre ++ w ++ rest
                     /\ matches ic r (advance prev pre) w rest.
Proof.
  intros s prev. split.
  - revert prev. induction s as [|c s IH]; intros prev H; simpl in H.
    + destruct (match_at ic r prev []) eqn:E; [|discriminate].
      apply rmatch_sound in E as (w & rest & Hs & Hm & _).
      exists [], w, rest. auto.
    + destruct (match_at ic r prev (c :: s)) eqn:E.
      * apply rmatch_sound in E as (w & rest & Hs & Hm & _).
        exists [], w, rest. auto.
      * apply IH in H as (pre & w & rest & -> & Hm).
        exists (c :: pre), w, rest. auto.
  - intros (pre & w & rest & -> & Hm). revert prev Hm.
    induction pre as [|c pre IH]; intros prev Hm.
    + simpl in *.
      destruct (rmatch_complete r prev w rest (fun _ x => Some x) rest Hm
                  eq_refl) as [o E].
      destruct (w ++ rest); simpl; unfold match_at; rewrite E; auto.
    + simpl. destruct (match_at ic r prev _); auto.
Qed.

(** A match survives an extension of the input, unless it reaches the
    end of the input and the extension starts with a word character. *)
Lemma matches_extend r ext : forall prev w rest,
  matches ic r prev w rest ->
  rest <> [] \/ is_word_opt (hd_error ext) = false ->
  matches ic r prev w (rest ++ ext).
Proof.
  induction r as [x|p|p|r1 IH1 r2 IH2|r1 IH1 r2 IH2| |];
    intros prev w rest Hm He; simpl in *; auto.
  - destruct Hm as (w1 & w2 & -> & H1 & H2). exists w1, w2.
    repeat split; auto. rewrite app_assoc. apply IH1; auto.
    destruct He as [He|He]; auto. left. destruct w2; simpl; congruence.
  - destruct Hm as [Hm|Hm]; auto.
  - destruct Hm as (-> & Hx). split; auto.
    destruct rest as [|c rest]; simpl in *; auto.
    destruct He as [He|He]; [congruence|]. rewrite He. exact Hx.
Qed.
End MatcherFacts.

(* ================================================================= *)
(** ** Facts on the patterns of the rule table *)

Lemma includes_In t c : includes t c = true <-> In c t.
Proof.
  unfold includes. rewrite existsb_exists. split.
  - intros (x & Hx & E). apply N.eqb_eq in E. subst. exact Hx.
  - intros H. exists c. split; auto. apply N.eqb_refl.
Qed.

(** [/\?/.test(t)] holds exactly when [t] contains a question mark. *)
Lemma test_question t : test question_re t = true <-> In qmark t.
Proof.
  unfold test, question_re. simpl. rewrite search_spec. split.
  - intros (pre & w & rest & -> & Hm). simpl in Hm.
    inversion Hm as [|p c x w' Hc Hw]; subst. inversion Hw; subst.
    apply N.eqb_eq in Hc. subst c.
    apply in_or_app. right. left. reflexivity.
  - intros H. apply in_split in H as (l1 & l2 & ->).
    exists l1, [qmark], l2. split; auto. simpl.
    constructor; [reflexivity|constructor].
Qed.

Lemma test_question_includes t : test question_re t = includes t qmark.
Proof.
  destruct (includes t qmark) eqn:E.
  - apply test_question, includes_In, E.
  - destruct (test question_re t) eqn:E'; auto.
    apply test_question, includes_In in E'. congruence.
Qed.

Lemma matches_alt ic r rs : forall prev w rest,
  matches ic (alt r rs) prev w rest ->
  exists r', In r' (r :: rs) /\ matches ic r' prev w rest.
Proof.
  revert r. induction rs as [|r1 rs IH]; intros r prev w rest H; simpl in H.
  - exists r. simpl. auto.
  - destruct H as [H|H].
    + exists r. simpl. auto.
    + apply IH in H as (r' & Hin & Hm). exists r'. simpl in *. tauto.
Qed.

Lemma matches_phrases ic x xs prev w rest :
  matches ic (phrases x xs) prev w rest ->
  exists ph, In ph (x :: xs)
             /\ Forall2 (fun p c => char_eq ic p c = true) (lit ph) w.
Proof.
  intros H. apply matches_alt in H as (r' & Hin & Hm).
  destruct Hin as [<-|Hin].
  - exists x. simpl. auto.
  - apply in_map_iff in Hin as (ph & <- & Hin). exists ph. simpl. auto.
Qed.

Lemma Forall2_advance (R : N -> N -> Prop) x w :
  Forall2 R x w -> x <> [] ->
  forall p q, exists a b,
    advance p x = Some a /\ advance q w = Some b /\ R a b.
Proof.
  induction 1 as [|a b x w Hab Hxw IH]; intros Hne p q; [congruence|].
  destruct x as [|a' x].
  - inversion Hxw; subst. exists a, b. simpl. auto.
  - destruct (IH ltac:(discriminate) (Some a) (Some b))
      as (a0 & b0 & Ha & Hb & Hr).
    exists a0, b0. rewrite !advance_cons. auto.
Qed.

(** A pattern without the [u] flag that matches [t] still matches when [t]
    is extended by something that does not start with a word character. *)
Lemma test_extend re t ext :
  unicode re = false ->
  is_word_opt (hd_error ext) = false ->
  test re t = true -> test re (t ++ ext) = true.
Proof.
  unfold test. intros -> He H.
  apply search_spec in H as (pre & w & rest & -> & Hm).
  apply search_spec. exists pre, w, (rest ++ ext).
  split; [now rewrite <- !app_assoc|].
  apply matches_extend; auto.
Qed.

(** When [/\b(x|xs...)\b/i] matches [t] but no longer matches an extension
    of [t], then [t] ends with one of the phrases, up to case. *)
Lemma test_lost x xs t ext :
  forallb nonempty (map lit (x :: xs)) = true ->
  test (bounded_i x xs) t = true ->
  test (bounded_i x xs) (t ++ ext) = false ->
  exists ph a b, In ph (x :: xs)
    /\ advance None (lit ph) = Some a /\ advance None t = Some b
    /\ canonicalize a = canonicalize b.
Proof.
  unfold test, bounded_i. simpl source. simpl ignoreCase. simpl unicode.
  cbv iota. intros Hne H Hlost.
  apply search_spec in H as (pre & w & rest & -> & Hm).
  destruct rest as [|c rest].
  - destruct Hm as (w1 & w23 & -> & (-> & Hb1) & (w2 & w3 & -> & Hp & (-> & Hb2))).
    apply matches_phrases in Hp as (ph & Hin & Hf).
    assert (Hph : lit ph <> []).
    { rewrite forallb_forall in Hne.
      specialize (Hne (lit ph) (in_map lit _ _ Hin)).
      destruct (lit ph); [discriminate|congruence]. }
    destruct (Forall2_advance _ _ _ Hf Hph None (advance None pre))
      as (a & b & Ha & Hb & Hab).
    exists ph, a, b. repeat split; auto.
    + simpl. rewrite !app_nil_r. rewrite advance_app. exact Hb.
    + apply N.eqb_eq. exact Hab.
  - exfalso.
    assert (E : search true (RSeq RWordB (RSeq (phrases x xs) RWordB)) None
                  ((pre ++ w ++ c :: rest) ++ ext) = true).
    { apply search_spec. exists pre, w, ((c :: rest) ++ ext).
      split; [now rewrite <- !app_assoc|].
      apply matches_extend; auto. left. discriminate. }
    congruence.
Qed.

(* ================================================================= *)
(** ** The passes, field by field *)

#[local] Arguments test : simpl never.
#[local] Arguments Z.min : simpl never.
#[local] Arguments Z.max : simpl never.
#[local] Arguments Z.add : simpl never.
#[local] Arguments Z.sub : simpl never.
#[local] Arguments Math_round : simpl never.
#[local] Arguments add : simpl never.
#[local] Arguments mul : simpl never.
#[local] Arguments div : simpl never.
#[local] Arguments of_Z : simpl never.
#[local] Arguments string_of_Z : simpl never.
#[local] Arguments JS.length : simpl never.

Lemma same_data_refl r : same_data r r.
Proof. repeat split. Qed.

Lemma same_data_trans r1 r2 r3 :
  same_data r1 r2 -> same_data r2 r3 -> same_data r1 r3.
Proof.
  unfold same_data. intros (A1 & A2 & A3 & A4 & A5 & A6)
    (B1 & B2 & B3 & B4 & B5 & B6). repeat split; congruence.
Qed.

Lemma same_data_push_factor r f : same_data r (push_factor r f).
Proof. repeat split. Qed.

Lemma same_data_push_warning r w : same_data r (push_warning r w).
Proof. repeat split. Qed.

Create HintDb passes.
#[local] Hint Resolve same_data_refl same_data_push_factor
  same_data_push_warning : passes.

Lemma fold_boost sig t l : forall acc,
  fst (fold_left (boost sig t) l acc)
    = fst acc + Zsum (map weight (matching t l))
  /\ same_data (snd acc) (snd (fold_left (boost sig t) l acc)).
Proof.
  induction l as [|b l IH]; intros acc; simpl.
  - split; [lia|auto with passes].
  - destruct (IH (boost sig t acc b)) as [E S]. rewrite E. clear E.
    unfold boost in *. destruct (test (pattern b) t); simpl in *.
    + split; [lia|]. eapply same_data_trans; [|exact S]. auto with passes.
    + auto.
Qed.

Lemma fold_negative t l : forall acc,
  fst (fold_left (negative_step t) l acc)
    = fst acc + Zsum (map n_weight (filter (fun n => test (n_pattern n) t) l))
  /\ same_data (snd acc) (snd (fold_left (negative_step t) l acc)).
Proof.
  induction l as [|b l IH]; intros acc; simpl.
  - split; [lia|auto with passes].
  - destruct (IH (negative_step t acc b)) as [E S]. rewrite E. clear E.
    unfold negative_step in *. destruct (test (n_pattern b) t); simpl in *.
    + split; [lia|]. eapply same_data_trans; [|exact S]. repeat split.
    + auto.
Qed.

Lemma fold_spam t l : forall acc,
  fst (fold_left (spam_step t) l acc)
    = fst acc + Zsum (map s_weight (filter (fun s => check s t) l))
  /\ same_data (snd acc) (snd (fold_left (spam_step t) l acc)).
Proof.
  induction l as [|b l IH]; intros acc; simpl.
  - split; [lia|auto with passes].
  - destruct (IH (spam_step t acc b)) as [E S]. rewrite E. clear E.
    unfold spam_step in *. destruct (check b t); simpl in *.
    + split; [lia|]. eapply same_data_trans; [|exact S]. repeat split.
    + auto.
Qed.

Lemma fold_muted t l : forall r,
  same_data r (fold_left (muted_step t) l r).
Proof.
  induction l as [|m l IH]; intros r; simpl; [auto with passes|].
  eapply same_data_trans; [|apply IH].
  unfold muted_step. destruct (test (m_pattern m) t); auto with passes.
Qed.

(** Names the two components of the next [forEach] of a pass. *)
Ltac step_fold lem :=
  match goal with
  | |- context [fold_left ?f ?l (?z, ?r)] =>
      let s := fresh "score" in
      let r' := fresh "r" in
      let E := fresh "E" in
      let Hs := fresh "Hs" in
      let Hr := fresh "Hr" in
      destruct (lem l (z, r)) as [Hs Hr];
      destruct (fold_left f l (z, r)) as [s r'] eqn:E;
      cbn [fst snd] in Hs, Hr
  end.

Lemma analyzePredictions_spec t r :
  predictions (analyzePredictions t r) = predictions_value t
  /\ text_of (analyzePredictions t r) = text_of r
  /\ charCount (analyzePredictions t r) = charCount r
  /\ wordCount (analyzePredictions t r) = wordCount r
  /\ scores (analyzePredictions t r) = scores r
  /\ recommendations (analyzePredictions t r) = recommendations r.
Proof.
  unfold analyzePredictions.
  step_fold (fold_boost "P(reply)" t).
  step_fold (fold_boost "P(favorite)" t).
  step_fold (fold_boost "P(click)" t).
  step_fold (fold_boost "P(repost)" t).
  step_fold (fold_boost "P(follow_author)" t).
  pose proof (same_data_trans _ _ _ Hr
                (same_data_trans _ _ _ Hr0
                   (same_data_trans _ _ _ Hr1
                      (same_data_trans _ _ _ Hr2 Hr3)))) as (A & B & C & D & _ & F).
  cbn. unfold predictions_value, prediction_value. subst.
  repeat split; auto.
Qed.

Lemma analyzeContentQuality_spec t r :
  let r' := analyzeContentQuality t r in
  scores r' = mkScores (Some (quality_value t)) (format (scores r))
                       (safety (scores r)) (overall (scores r))
  /\ text_of r' = text_of r /\ charCount r' = charCount r
  /\ wordCount r' = wordCount r /\ predictions r' = predictions r
  /\ recommendations r' = recommendations r.
Proof.
  unfold analyzeContentQuality, quality_value.
  destruct (test informational_re t), (test digits_re t),
    (test hook_re (substring0 120 t)); cbn; repeat split.
Qed.

Lemma analyzeNegativeSignals_spec lower t r :
  let r' := analyzeNegativeSignals lower t r in
  scores r' = mkScores (contentQuality (scores r)) (format (scores r))
                       (Some (safety_value lower t)) (overall (scores r))
  /\ text_of r' = text_of r /\ charCount r' = charCount r
  /\ wordCount r' = wordCount r /\ predictions r' = predictions r
  /\ recommendations r' = recommendations r.
Proof.
  unfold analyzeNegativeSignals.
  step_fold (fold_negative t).
  step_fold (fold_spam t).
  pose proof (same_data_trans _ _ _ Hr
                (same_data_trans _ _ _ Hr0
                   (fold_muted t mutedRiskPatterns r1)))
    as (A & B & C & D & E1' & F).
  unfold set_safety, with_scores, safety_value, fired_triggers, fired_spam.
  cbn [scores text_of charCount wordCount predictions recommendations
       contentQuality format safety overall].
  subst. rewrite A, B, C, D, E1', F. repeat split.
Qed.

Lemma analyzeFormat_spec t o r :
  let r' := analyzeFormat t o r in
  scores r' = mkScores (contentQuality (scores r)) (Some (format_value t o))
                       (safety (scores r)) (overall (scores r))
  /\ text_of r' = text_of r /\ charCount r' = charCount r
  /\ wordCount r' = wordCount r /\ predictions r' = predictions r
  /\ recommendations r' = recommendations r.
Proof.
  unfold analyzeFormat, format_value, media_of.
  destruct ((100 <=? JS.length t) && (JS.length t <=? 200)),
    (JS.length t <? 50),
    (String.eqb match mediaType o with Some m => m | None => "none" end "video"),
    (String.eqb match mediaType o with Some m => m | None => "none" end "image"),
    (String.eqb match mediaType o with Some m => m | None => "none" end "thread");
    cbn; repeat split.
Qed.

Lemma calculateOverallScore_spec r :
  let r' := calculateOverallScore r in
  scores r' = mkScores (contentQuality (scores r)) (format (scores r))
                (safety (scores r))
                (Some (overall_number (map snd (predictions r))
                         (contentQuality (scores r)) (format (scores r))
                         (safety (scores r))))
  /\ text_of r' = text_of r /\ charCount r' = charCount r
  /\ wordCount r' = wordCount r /\ predictions r' = predictions r
  /\ recommendations r' = recommendations r.
Proof. cbn. repeat split. Qed.

Lemma generateRecommendations_spec r o :
  let r' := generateRecommendations r o in
  recommendations r' = recommendations_value r o
  /\ text_of r' = text_of r /\ charCount r' = charCount r
  /\ wordCount r' = wordCount r /\ predictions r' = predictions r
  /\ scores r' = scores r.
Proof.
  unfold generateRecommendations, recommendations_value, when.
  rewrite test_question_includes.
  destruct (lt_num (prediction (predictions r) "P(reply)") 50
            && negb (includes (text_of r) qmark)),
    (lt_num (prediction (predictions r) "P(click)") 40),
    (lt_num (prediction (predictions r) "P(repost)") 40),
    ((JS.length (text_of r) >? 250) && not_thread o),
    (lt_num (prediction (predictions r) "P(follow_author)") 40);
    cbn; repeat split.
Qed.

(** [analyzePost], field by field. *)
Lemma analyzePost_spec lower t o :
  let r := analyzePost lower t o in
  text_of r = t
  /\ charCount r = JS.length t
  /\ wordCount r
     = Z.of_nat (List.length (filter nonempty (split spaces_re t)))
  /\ predictions r = predictions_value t
  /\ scores r
     = mkScores (Some (quality_value t)) (Some (format_value t o))
         (Some (safety_value lower t))
         (Some (overall_number (map snd (predictions_value t))
                  (Some (quality_value t)) (Some (format_value t o))
                  (Some (safety_value lower t))))
  /\ recommendations r = recommendations_value r o.
Proof.
  unfold analyzePost.
  set (r0 := mkResult t _ _ _ _ _ _ _).
  pose proof (analyzePredictions_spec t r0) as HH; cbv zeta in HH;
    destruct HH as (P1 & T1 & C1 & W1 & S1 & _).
  set (r1 := analyzePredictions t r0) in *.
  pose proof (analyzeContentQuality_spec t r1) as HH; cbv zeta in HH;
    destruct HH as (S2 & T2 & C2 & W2 & P2 & _).
  set (r2 := analyzeContentQuality t r1) in *.
  pose proof (analyzeNegativeSignals_spec lower t r2) as HH; cbv zeta in HH;
    destruct HH as (S3 & T3 & C3 & W3 & P3 & _).
  set (r3 := analyzeNegativeSignals lower t r2) in *.
  pose proof (analyzeFormat_spec t o r3) as HH; cbv zeta in HH;
    destruct HH as (S4 & T4 & C4 & W4 & P4 & _).
  set (r4 := analyzeFormat t o r3) in *.
  pose proof (calculateOverallScore_spec r4) as HH; cbv zeta in HH;
    destruct HH as (S5 & T5 & C5 & W5 & P5 & _).
  set (r5 := calculateOverallScore r4) in *.
  pose proof (generateRecommendations_spec r5 o) as HH; cbv zeta in HH;
    destruct HH as (R6 & T6 & C6 & W6 & P6 & S6).
  set (r6 := generateRecommendations r5 o) in *.
  rewrite S1 in S2. unfold r0 in S2.
  cbn [scores contentQuality format safety overall] in S2.
  rewrite S2 in S3. cbn [scores contentQuality format safety overall] in S3.
  rewrite S3 in S4. cbn [scores contentQuality format safety overall] in S4.
  rewrite S4, P4, P3, P2, P1 in S5.
  cbn [scores contentQuality format safety overall] in S5.
  cbv zeta.
  rewrite T6, T5, T4, T3, T2, T1, C6, C5, C4, C3, C2, C1, W6, W5, W4, W3, W2,
    W1, P6, P5, P4, P3, P2, P1, S6, S5.
  unfold r0. cbn [text_of charCount wordCount].
  repeat split. exact R6.
Qed.

Lemma Zsum_filter_bounds {A} (w : A -> Z) (p : A -> bool) (l : list A) :
  Zsum (map (fun x => Z.min 0 (w x)) l) <= Zsum (map w (filter p l))
  <= Zsum (map (fun x => Z.max 0 (w x)) l).
Proof.
  induction l as [|a l IH]; simpl; [lia|].
  destruct (p a); simpl; unfold Zsum in *; simpl; lia.
Qed.

Lemma prediction_value_bounds b l t :
  0 <= b -> Zsum (map (fun x => Z.min 0 (weight x)) l) = 0 ->
  0 <= prediction_value b l t <= 100.
Proof.
  intros Hb Hw. unfold prediction_value, matching.
  pose proof (Zsum_filter_bounds weight (fun b => test (pattern b) t) l).
  lia.
Qed.

(* ================================================================= *)
(** ** Properties of [analyzePost] *)

Section AnalyzePost.
Variable toLowerCase : text -> text.

(** C2. Every one of the five predictions of [analyzePost] is its baseline
    (reply 30, favorite 40, click 25, repost 20, follow_author 25) plus
    the weights of the rules of its category whose pattern matches the
    text, capped at 100, and lies in [0,100]. *)
Theorem predictions_baseline_plus_boosts (t : text) (o : Options) :
  predictions (analyzePost toLowerCase t o)
  = [ ("P(reply)",
       Z.min 100 (30 + Zsum (map weight (matching t replyBoosters))));
      ("P(favorite)",
       Z.min 100 (40 + Zsum (map weight (matching t favoriteBoosters))));
      ("P(click)",
       Z.min 100 (25 + Zsum (map weight (matching t clickBoosters))));
      ("P(repost)",
       Z.min 100 (20 + Zsum (map weight (matching t shareBoosters))));
      ("P(follow_author)",
       Z.min 100 (25 + Zsum (map weight (matching t followBoosters)))) ]
  /\ Forall (fun kv => 0 <= snd kv <= 100)
       (predictions (analyzePost toLowerCase t o)).
Proof.
  destruct (analyzePost_spec toLowerCase t o) as (_ & _ & _ & P & _).
  rewrite P. split; [reflexivity|].
  unfold predictions_value.
  repeat (constructor; [apply prediction_value_bounds; [lia|reflexivity]|]).
  constructor.
Qed.

Lemma not_thread_spec o : not_thread o = true <-> mediaType o <> Some "thread".
Proof.
  unfold not_thread. destruct (mediaType o) as [m|]; [|split; congruence].
  rewrite negb_true_iff, String.eqb_neq. split; congruence.
Qed.

(** C3. The recommendations of [analyzePost] are, in this order and with
    nothing else: "Add a question" (high) iff reply < 50 and the text has
    no question mark; "Add a soft call-to-action" (medium) iff click < 40;
    "Add shareable value" (medium) iff repost < 40; "Consider thread
    format" (low) iff the text is longer than 250 and the media type is
    not "thread"; "Add community language" (low) iff follow_author < 40. *)
Theorem recommendations_in_order (t : text) (o : Options) :
  exists reply click repost follow,
    prediction (predictions (analyzePost toLowerCase t o)) "P(reply)"
      = Some reply
    /\ prediction (predictions (analyzePost toLowerCase t o)) "P(click)"
      = Some click
    /\ prediction (predictions (analyzePost toLowerCase t o)) "P(repost)"
      = Some repost
    /\ prediction (predictions (analyzePost toLowerCase t o))
         "P(follow_author)" = Some follow
    /\ actions (recommendations (analyzePost toLowerCase t o))
       = when ((reply <? 50) && negb (includes t qmark))
              ("Add a question", "high")
         ++ when (click <? 40) ("Add a soft call-to-action", "medium")
         ++ when (repost <? 40) ("Add shareable value", "medium")
         ++ when ((JS.length t >? 250) && not_thread o)
              ("Consider thread format", "low")
         ++ when (follow <? 40) ("Add community language", "low")
    /\ (includes t qmark = true <-> In qmark t)
    /\ (not_thread o = true <-> mediaType o <> Some "thread").
Proof.
  destruct (analyzePost_spec toLowerCase t o) as (T & _ & _ & P & _ & R).
  cbv zeta in *. rewrite R. unfold recommendations_value. rewrite T, P.
  unfold predictions_value. cbn [prediction String.eqb Ascii.eqb Bool.eqb].
  do 4 eexists. repeat split; try reflexivity.
  - unfold lt_num, when, actions.
    repeat match goal with
           | |- context [if ?c then _ else _] => destruct c
           end; reflexivity.
  - apply includes_In.
  - apply includes_In.
  - apply not_thread_spec.
  - apply not_thread_spec.
Qed.

(** C10. The safety score of [analyzePost] lies in [27,100]: it is 100
    plus the weights of the fired negative triggers (at least -47) and of
    the fired spam checks (at least -26), each rule counted once; the
    floor at 0 is never reached, and the default of 100 that the
    aggregation applies to a zero safety is never used. *)
Theorem safety_between_27_and_100 (t : text) (o : Options) :
  exists s,
    safety (scores (analyzePost toLowerCase t o)) = Some s
    /\ 27 <= s <= 100
    /\ s = 100 + Zsum (map n_weight (fired_triggers t))
             + Zsum (map s_weight (fired_spam toLowerCase t))
    /\ -47 <= Zsum (map n_weight (fired_triggers t)) <= 0
    /\ -26 <= Zsum (map s_weight (fired_spam toLowerCase t)) <= 0
    /\ or_default (Some s) 100 = s.
Proof.
  destruct (analyzePost_spec toLowerCase t o) as (_ & _ & _ & _ & S & _).
  rewrite S. cbn [safety]. exists (safety_value toLowerCase t).
  unfold safety_value, fired_triggers, fired_spam.
  pose proof (Zsum_filter_bounds n_weight (fun n => test (n_pattern n) t)
                negativeTriggers) as H1.
  pose proof (Zsum_filter_bounds s_weight (fun s => check s t)
                (spamIndicators toLowerCase)) as H2.
  change (Zsum (map (fun x => Z.min 0 (n_weight x)) negativeTriggers))
    with (-47) in H1.
  change (Zsum (map (fun x => Z.max 0 (n_weight x)) negativeTriggers))
    with 0 in H1.
  change (Zsum (map (fun x => Z.min 0 (s_weight x))
                  (spamIndicators toLowerCase))) with (-26) in H2.
  change (Zsum (map (fun x => Z.max 0 (s_weight x))
                  (spamIndicators toLowerCase))) with 0 in H2.
  repeat split; try lia.
  unfold or_default.
  destruct (Z.eqb_spec
              (Z.max 0 (100 + Zsum (map n_weight
                 (filter (fun n => test (n_pattern n) t) negativeTriggers))
               + Zsum (map s_weight
                 (filter (fun s => check s t) (spamIndicators toLowerCase)))))
              0); [lia|reflexivity].
Qed.

Lemma media_of_unrecognized o :
  mediaType o <> Some "image" -> mediaType o <> Some "video" ->
  mediaType o <> Some "thread" ->
  String.eqb (media_of o) "video" = false
  /\ String.eqb (media_of o) "image" = false
  /\ String.eqb (media_of o) "thread" = false.
Proof.
  unfold media_of. intros Hi Hv Ht.
  destruct (mediaType o) as [m|]; [|repeat split].
  repeat split; apply String.eqb_neq; congruence.
Qed.

Lemma analyzeFormat_unrecognized t o o' r :
  mediaType o <> Some "image" -> mediaType o <> Some "video" ->
  mediaType o <> Some "thread" -> mediaType o' = Some "none" ->
  analyzeFormat t o r = analyzeFormat t o' r.
Proof.
  intros Hi Hv Ht Hn.
  destruct (media_of_unrecognized o Hi Hv Ht) as (E1 & E2 & E3).
  unfold analyzeFormat. fold (media_of o). fold (media_of o').
  rewrite E1, E2, E3. unfold media_of at 1 2 3. rewrite Hn. reflexivity.
Qed.

Lemma generateRecommendations_unrecognized o o' r :
  mediaType o <> Some "thread" -> mediaType o' = Some "none" ->
  generateRecommendations r o = generateRecommendations r o'.
Proof.
  intros Ht Hn. unfold generateRecommendations.
  replace (not_thread o') with true by (unfold not_thread; now rewrite Hn).
  apply not_thread_spec in Ht. rewrite Ht. reflexivity.
Qed.

Lemma analyzePost_unrecognized (t : text) (o o' : Options) :
  mediaType o <> Some "image" -> mediaType o <> Some "video" ->
  mediaType o <> Some "thread" -> mediaType o' = Some "none" ->
  analyzePost toLowerCase t o = analyzePost toLowerCase t o'.
Proof.
  intros Hi Hv Ht Hn. unfold analyzePost.
  rewrite (analyzeFormat_unrecognized t o o' _ Hi Hv Ht Hn).
  apply generateRecommendations_unrecognized; assumption.
Qed.

(** The repetition check cannot fire on a text that [split] cuts into at
    most ten pieces, whatever the case mapping. *)
Lemma word_repetition_few lower t :
  (Z.of_nat (List.length (split spaces_re t)) >? 10) = false ->
  word_repetition lower t = false.
Proof. unfold word_repetition. intros ->. apply andb_false_r. Qed.

Lemma analyzePost_few t o :
  (Z.of_nat (List.length (split spaces_re t)) >? 10) = false ->
  analyzePost toLowerCase t o = analyzePost asciiLower t o.
Proof.
  intros H. unfold analyzePost.
  assert (E : forall r, analyzeNegativeSignals toLowerCase t r
                        = analyzeNegativeSignals asciiLower t r).
  { intros r. unfold analyzeNegativeSignals, spamIndicators.
    destruct (fold_left (negative_step t) negativeTriggers (100, r))
      as [z r1].
    cbn [fold_left]. unfold spam_step. cbn [check].
    rewrite !(word_repetition_few _ t H). reflexivity. }
  rewrite E. reflexivity.
Qed.

(** C7. [analyzePost] on the empty text and the empty options returns a
    result with [charCount = 0], [wordCount = 0], the five predictions at
    their baselines 30, 40, 25, 20, 25 and a safety score of 100. *)
Theorem empty_text_baselines :
  charCount (analyzePost toLowerCase [] no_options) = 0
  /\ wordCount (analyzePost toLowerCase [] no_options) = 0
  /\ predictions (analyzePost toLowerCase [] no_options)
     = [ ("P(reply)", 30); ("P(favorite)", 40); ("P(click)", 25);
         ("P(repost)", 20); ("P(follow_author)", 25) ]
  /\ safety (scores (analyzePost toLowerCase [] no_options)) = Some 100.
Proof.
  rewrite (analyzePost_few [] no_options eq_refl).
  vm_compute. repeat split.
Qed.

(** *** The aggregate *)

Lemma same_number_eq a b : same_number a b = true -> a = b.
Proof.
  destruct a as [s|s| |s m e], b as [s'|s'| |s' m' e']; simpl;
    try discriminate; intros H.
  - apply Bool.eqb_prop in H. congruence.
  - apply Bool.eqb_prop in H. congruence.
  - apply andb_true_iff in H as [H H3]. apply andb_true_iff in H as [H1 H2].
    apply Bool.eqb_prop in H1. apply Pos.eqb_eq in H2. apply Z.eqb_eq in H3.
    congruence.
Qed.

Lemma subset_sums_filter {A} (w : A -> Z) (p : A -> bool) (l : list A) :
  In (Zsum (map w (filter p l))) (subset_sums (map w l)).
Proof.
  induction l as [|a l IH]; simpl; [auto|].
  apply in_or_app. destruct (p a); simpl.
  - right. apply in_map. exact IH.
  - left. exact IH.
Qed.

Lemma add_lists_In l1 l2 a b :
  In a l1 -> In b l2 -> In (a + b) (add_lists l1 l2).
Proof.
  intros Ha Hb. unfold add_lists. apply nodup_In, in_flat_map.
  exists a. split; auto. apply in_map. exact Hb.
Qed.

Lemma prediction_value_candidate b l t :
  In (prediction_value b l t) (candidates b l).
Proof.
  unfold prediction_value, candidates, matching. apply nodup_In.
  apply (in_map (fun x => Z.min 100 (b + x))). apply subset_sums_filter.
Qed.

Lemma quality_value_candidate t : In (quality_value t) qualities.
Proof.
  unfold quality_value, qualities.
  destruct (test informational_re t), (test digits_re t),
    (test hook_re (substring0 120 t)); vm_compute; tauto.
Qed.

Lemma format_value_candidate t o : In (format_value t o) formats.
Proof.
  unfold format_value, formats.
  destruct ((100 <=? JS.length t) && (JS.length t <=? 200)),
    (JS.length t <? 50), (String.eqb (media_of o) "video"),
    (String.eqb (media_of o) "image"), (String.eqb (media_of o) "thread");
    vm_compute; tauto.
Qed.

Lemma safety_value_candidate t : In (safety_value toLowerCase t) safeties.
Proof.
  unfold safety_value, safeties, fired_triggers, fired_spam.
  apply nodup_In, in_flat_map.
  exists (Zsum (map n_weight
                  (filter (fun n => test (n_pattern n) t) negativeTriggers))).
  split; [apply subset_sums_filter|].
  apply (in_map (fun b => Z.max 0 (100 + _ + b))).
  apply (subset_sums_filter s_weight (fun s => check s t)
           (spamIndicators toLowerCase)).
Qed.

Lemma forallb_In {A} (f : A -> bool) l x :
  forallb f l = true -> In x l -> f x = true.
Proof. intros H. apply forallb_forall. exact H. Qed.

Lemma sums_exact_true : sums_exact = true.
Proof. vm_cast_no_check (eq_refl true). Qed.

Lemma overall_exact_true : overall_exact = true.
Proof. vm_cast_no_check (eq_refl true). Qed.

Lemma float_sum_exact a b c d e :
  In a replies -> In b favorites -> In c clicks -> In d reposts ->
  In e follows ->
  float_sum [a; b; c; d; e] = of_Z (a + (b + (c + (d + e)))).
Proof.
  intros Ha Hb Hc Hd He. apply same_number_eq.
  exact (forallb_In _ _ e
           (forallb_In _ _ d
              (forallb_In _ _ c
                 (forallb_In _ _ b
                    (forallb_In _ _ a sums_exact_true Ha) Hb) Hc) Hd) He).
Qed.

Lemma overall_from_exact sum q f s :
  In sum sums -> In q qualities -> In f formats -> In s safeties ->
  overall_from (of_Z sum) 5 (Some q) (Some f) (Some s)
    = of_Z (exact_overall sum q f s)
  /\ 0 <= exact_overall sum q f s <= 100.
Proof.
  intros Hsum Hq Hf Hs.
  pose proof
    (forallb_In _ _ _
       (forallb_In _ _ _
          (forallb_In _ _ _
             (forallb_In _ _ _ overall_exact_true Hsum)
             (in_map (weighted weights_contentQuality 50) _ _ Hq))
          (in_map (weighted weights_format 50) _ _ Hf))
       (in_map (weighted weights_safety 100) _ _ Hs)) as H.
  cbn [weighted fst snd] in H.
  apply andb_true_iff in H as [H H3]. apply andb_true_iff in H as [H1 H2].
  apply same_number_eq in H1. apply Z.leb_le in H2. apply Z.leb_le in H3.
  split; [exact H1|split; assumption].
Qed.

(** The aggregate of the specification, in integers. *)
Lemma spec_overall_exact a b c d e q f s :
  spec_overall [a; b; c; d; e] (Some q) (Some f) (Some s)
  = exact_overall (a + (b + (c + (d + e)))) q f s.
Proof.
  unfold spec_overall, round_half_up, mean, present, exact_overall, Zsum.
  cbn [fold_right List.length Z.of_nat Pos.of_succ_nat Pos.succ].
  set (n := 2 * (a + (b + (c + (d + e)))) + 4 * q + 3 * f + 3 * s + 10).
  assert (E : (inject_Z (a + (b + (c + (d + (e + 0))))) / inject_Z 5
               * (5 # 10) + inject_Z q * (2 # 10) + inject_Z f * (15 # 100)
               + inject_Z s * (15 # 100) + (1 # 2) == n # 20)%Q).
  { unfold n, Qeq, Qdiv, Qinv, Qplus, Qmult, inject_Z. cbn [Qnum Qden].
    lia. }
  rewrite (Qfloor_comp _ _ E). reflexivity.
Qed.

(** C1. [analyzePost] sets [scores.overall] to
    [round(avgPrediction * 0.5 + contentQuality * 0.2 + format * 0.15
    + safety * 0.15)], [avgPrediction] being the mean of the five
    predictions: the number computed in doubles by the code is the integer
    that the formula gives in exact arithmetic, and it lies in [0,100].
    The three scores it reads are always present. *)
Theorem overall_is_rounded_weighted_sum (t : text) (o : Options) :
  exists k q f s,
    overall (scores (analyzePost toLowerCase t o)) = Some (of_Z k)
    /\ contentQuality (scores (analyzePost toLowerCase t o)) = Some q
    /\ format (scores (analyzePost toLowerCase t o)) = Some f
    /\ safety (scores (analyzePost toLowerCase t o)) = Some s
    /\ List.length (predictions (analyzePost toLowerCase t o)) = 5%nat
    /\ of_Z k
       = overall_number
           (map snd (predictions (analyzePost toLowerCase t o)))
           (Some q) (Some f) (Some s)
    /\ k = spec_overall
             (map snd (predictions (analyzePost toLowerCase t o)))
             (Some q) (Some f) (Some s)
    /\ 0 <= k <= 100.
Proof.
  destruct (analyzePost_spec toLowerCase t o) as (_ & _ & _ & P & S & _).
  rewrite S, P. cbn [overall contentQuality format safety].
  unfold predictions_value. cbn [map snd List.length].
  set (a := prediction_value 30 replyBoosters t).
  set (b := prediction_value 40 favoriteBoosters t).
  set (c := prediction_value 25 clickBoosters t).
  set (d := prediction_value 20 shareBoosters t).
  set (e := prediction_value 25 followBoosters t).
  assert (Ha : In a replies) by apply prediction_value_candidate.
  assert (Hb : In b favorites) by apply prediction_value_candidate.
  assert (Hc : In c clicks) by apply prediction_value_candidate.
  assert (Hd : In d reposts) by apply prediction_value_candidate.
  assert (He : In e follows) by apply prediction_value_candidate.
  assert (Hsum : In (a + (b + (c + (d + e)))) sums)
    by (unfold sums; auto using add_lists_In).
  destruct (overall_from_exact _ _ _ _ Hsum (quality_value_candidate t)
              (format_value_candidate t o) (safety_value_candidate t))
    as [E B].
  assert (N : overall_number [a; b; c; d; e] (Some (quality_value t))
                (Some (format_value t o))
                (Some (safety_value toLowerCase t))
              = of_Z (exact_overall (a + (b + (c + (d + e))))
                        (quality_value t) (format_value t o)
                        (safety_value toLowerCase t))).
  { unfold overall_number. rewrite (float_sum_exact a b c d e Ha Hb Hc Hd He).
    exact E. }
  exists (exact_overall (a + (b + (c + (d + e)))) (quality_value t)
            (format_value t o) (safety_value toLowerCase t)),
    (quality_value t), (format_value t o), (safety_value toLowerCase t).
  rewrite N, spec_overall_exact. repeat split; try reflexivity; apply B.
Qed.

End AnalyzePost.

(* ================================================================= *)
(** ** Scenarios *)

(** The warnings of the scam scenario are not two. *)
Lemma scam_text_warnings_not_two :
  List.length (warnings (analyzePost asciiLower scam_text no_options))
  <> 2%nat.
Proof. vm_compute. discriminate. Qed.

(** C5 (amended). On "100x guaranteed returns, buy now!" with empty options
    exactly two negative triggers fire, hard sell (-15, P(not_interested))
    and scam language (-20, P(report)), the safety score is 65, and there
    are three warnings: one per trigger, then the "length" warning of the
    format pass, the text being shorter than 50 characters. *)
Theorem scam_text_analysis (lower : text -> text) :
  map trigger_summary (fired_triggers scam_text)
  = [ ("Hard sell language", -15, "P(not_interested)");
      ("Scam-associated language", -20, "P(report)") ]
  /\ fired_spam lower scam_text = []
  /\ safety (scores (analyzePost lower scam_text no_options)) = Some 65
  /\ warnings (analyzePost lower scam_text no_options)
     = [ mkWarning "P(not_interested)" None "Hard sell language";
         mkWarning "P(report)" None "Scam-associated language";
         mkWarning "length" None "Very short - may lack context" ]
  /\ charCount (analyzePost lower scam_text no_options) = 33.
Proof.
  rewrite (analyzePost_few lower scam_text no_options eq_refl).
  unfold fired_spam, spamIndicators. cbn [filter check].
  rewrite (word_repetition_few lower scam_text eq_refl).
  vm_compute. repeat split.
Qed.

(** C4 (the code at the failing input). On a text of 151 spaces
    [generateOptimizedVariants] throws: no sentence is left after the
    filter, and the thread opener reads [sentences[0].trim()]. *)
Theorem variants_throw_on_long_blank_text (analysis : AnalysisResult)
  (options : Options) :
  JS.length blank_text = 151
  /\ generateOptimizedVariants blank_text analysis options = TypeError.
Proof. vm_compute. split; reflexivity. Qed.

Lemma getChanges_nonempty original modified :
  getChanges original modified <> [].
Proof.
  unfold getChanges.
  destruct (includes modified qmark && negb (includes original qmark)),
    (JS.length modified >? JS.length original + 10); discriminate.
Qed.

(** When [generateOptimizedVariants] returns, the variants start with
    "Primary Optimized" and "Conversation Starter" and each lists a change;
    it returns whenever the text has at most 150 characters. *)
Lemma variants_when_returned t analysis options vs :
  generateOptimizedVariants t analysis options = Normal vs ->
  (exists v1 v2 rest, vs = v1 :: v2 :: rest
     /\ v_type v1 = "Primary Optimized"
     /\ v_type v2 = "Conversation Starter")
  /\ Forall (fun v => changes v <> []) vs.
Proof.
  unfold generateOptimizedVariants. cbn [app].
  match goal with
  | |- context [getChanges t ?p] =>
      pose proof (getChanges_nonempty t p) as Hc
  end.
  destruct (filter _ (split sentence_end_re t)) as [|s0 [|s1 l]];
    destruct (JS.length t >? 150); intros H; inversion H; subst; cbn [app];
    (split; [do 3 eexists; repeat split|]);
    repeat (constructor; [cbn [changes]; first [exact Hc|discriminate]|]);
    constructor.
Qed.

Lemma variants_return_on_short_text t analysis options :
  (JS.length t >? 150) = false ->
  exists vs, generateOptimizedVariants t analysis options = Normal vs.
Proof. unfold generateOptimizedVariants. intros ->. eauto. Qed.

(** C6 (the code at the failing input). "constructor a a a a b c d e f g" has
    eleven words and the word "a" four times, but the repetition check does
    not fire and no "spam" warning is logged: the counter is an object
    literal, the read of its key "constructor" yields an inherited function,
    the count becomes a string and the maximum is NaN.  With "x" in place of
    "constructor" the check fires. *)
Theorem repetition_missed_on_constructor :
  List.length (split spaces_re repeated_text) = 11%nat
  /\ occurrences (lit "a") (map asciiLower (split spaces_re repeated_text))
     = 4%nat
  /\ wordCount (analyzePost asciiLower repeated_text no_options) = 11
  /\ word_repetition asciiLower repeated_text = false
  /\ spam_warnings (analyzePost asciiLower repeated_text no_options) = []
  /\ safety (scores (analyzePost asciiLower repeated_text no_options))
     = Some 100
  /\ word_repetition asciiLower (lit "x a a a a b c d e f g") = true.
Proof. vm_compute. repeat split. Qed.

(** The same check counts the empty pieces that [split] leaves around the
    text: nine words between two spaces make eleven pieces, and the check
    fires although [wordCount] is 9. *)
Lemma repetition_counts_empty_pieces :
  wordCount (analyzePost asciiLower padded_text no_options) = 9
  /\ List.length (split spaces_re padded_text) = 11%nat
  /\ word_repetition asciiLower padded_text = true
  /\ word_repetition asciiLower (lit "a a a a b c d e f") = false.
Proof. vm_compute. repeat split. Qed.

(* ================================================================= *)
(** ** Appending a question *)

Lemma reply_of_analyzePost lower t o :
  reply_of (analyzePost lower t o)
  = Some (Z.min 100
            (30 + ((if test question_re t then 12 else 0)
                   + ((if test invitation_re t then 8 else 0)
                      + ((if test debate_re t then 6 else 0) + 0))))).
Proof.
  destruct (analyzePost_spec lower t o) as (_ & _ & _ & P & _).
  unfold reply_of. rewrite P.
  unfold predictions_value, prediction_value, matching, replyBoosters.
  cbn [prediction String.eqb Ascii.eqb Bool.eqb filter pattern].
  fold question_re. fold invitation_re. fold debate_re.
  destruct (test question_re t), (test invitation_re t), (test debate_re t);
    reflexivity.
Qed.

(** The two phrase rules of the reply category cannot both stop matching
    when the text is extended: each would need the text to end with one of
    its phrases, and no phrase of one rule ends like a phrase of the
    other. *)
Lemma reply_rules_not_both_lost t s :
  test invitation_re t = true -> test invitation_re (t ++ s) = false ->
  test debate_re t = true -> test debate_re (t ++ s) = false ->
  False.
Proof.
  intros A2 B2 A3 B3.
  destruct (test_lost "what do you think"
              ["thoughts?"; "agree?"; "disagree?"] t s eq_refl A2 B2)
    as (ph & a & b & Hin & Ha & Hb & Hab).
  destruct (test_lost "hot take" ["unpopular opinion"] t s eq_refl A3 B3)
    as (ph' & a' & b' & Hin' & Ha' & Hb' & Hab').
  rewrite Hb in Hb'. inversion Hb'; subst b'. rewrite <- Hab' in Hab.
  simpl in Hin, Hin'.
  destruct Hin as [<-|[<-|[<-|[<-|[]]]]];
    destruct Hin' as [<-|[<-|[]]];
    vm_compute in Ha, Ha'; inversion Ha; inversion Ha'; subst a a';
    vm_compute in Hab; discriminate.
Qed.

Lemma includes_app t s c : includes (t ++ s) c = includes t c || includes s c.
Proof. unfold includes. apply existsb_app. Qed.

(** C9 (amended). When a text without a question mark (its reply
    prediction is then below 50) is extended by a sentence with one, the
    reply prediction strictly increases; it is the old value plus the
    weights of the reply rules that newly match, minus the weights of
    those that no longer match.  No rule stops matching when the appended
    sentence does not begin with a word character, and the new value is
    then the old one plus exactly the newly matching weights. *)
Theorem reply_grows_when_question_appended (lower : text -> text)
  (t s : text) (o o' : Options) :
  lt_num (reply_of (analyzePost lower t o)) 50 = true ->
  includes t qmark = false ->
  includes s qmark = true ->
  exists old new,
    reply_of (analyzePost lower t o) = Some old
    /\ reply_of (analyzePost lower (t ++ s) o') = Some new
    /\ old < new
    /\ new = old + gained replyBoosters t (t ++ s)
                 - lost replyBoosters t (t ++ s)
    /\ (is_word_opt (hd_error s) = false ->
        lost replyBoosters t (t ++ s) = 0
        /\ new = old + gained replyBoosters t (t ++ s)).
Proof.
  intros _ Hq Hs. rewrite !reply_of_analyzePost.
  unfold gained, lost, replyBoosters. cbn [filter pattern].
  fold question_re. fold invitation_re. fold debate_re.
  rewrite !test_question_includes, includes_app, Hq, Hs.
  destruct (test invitation_re t) eqn:A2,
    (test invitation_re (t ++ s)) eqn:B2,
    (test debate_re t) eqn:A3, (test debate_re (t ++ s)) eqn:B3;
    try (exfalso; eapply reply_rules_not_both_lost; eassumption);
    cbn [orb andb negb filter map weight Zsum fold_right];
    do 2 eexists; (split; [reflexivity|]); (split; [reflexivity|]);
    (split; [lia|]); (split; [lia|]); intros Hw;
    try (rewrite (test_extend invitation_re t s eq_refl Hw A2) in B2;
         discriminate);
    try (rewrite (test_extend debate_re t s eq_refl Hw A3) in B3;
         discriminate);
    split; lia.
Qed.

(** A witness of C9: "hot take" extended by " agree?". *)
Lemma reply_grows_witness :
  exists old new,
    reply_of (analyzePost asciiLower take_text no_options) = Some old
    /\ reply_of (analyzePost asciiLower (take_text ++ spaced_question)
                   no_options) = Some new
    /\ old < new
    /\ new = old + gained replyBoosters take_text
                     (take_text ++ spaced_question)
                 - lost replyBoosters take_text
                     (take_text ++ spaced_question)
    /\ (is_word_opt (hd_error spaced_question) = false ->
        lost replyBoosters take_text (take_text ++ spaced_question) = 0
        /\ new = old + gained replyBoosters take_text
                         (take_text ++ spaced_question)).
Proof.
  apply (reply_grows_when_question_appended asciiLower take_text
           spaced_question no_options no_options); reflexivity.
Defined.

(** C9 as stated fails on "hot take" extended by "s welcome?": the rule for
    "hot take" stops matching, so the reply prediction goes from 36 to 42
    although the newly matching weights add up to 12. *)
Lemma reply_gain_not_exact :
  ~ (lt_num (reply_of (analyzePost asciiLower take_text no_options)) 50
     = true ->
     includes take_text qmark = false ->
     includes glued_question qmark = true ->
     exists old new,
       reply_of (analyzePost asciiLower take_text no_options) = Some old
       /\ reply_of (analyzePost asciiLower (take_text ++ glued_question)
                      no_options) = Some new
       /\ old < new
       /\ new = old + gained replyBoosters take_text
                        (take_text ++ glued_question)).
Proof.
  intros H.
  destruct (H eq_refl eq_refl eq_refl) as (old & new & Ho & Hn & _ & E).
  vm_compute in Ho, Hn. injection Ho as <-. injection Hn as <-.
  vm_compute in E. discriminate.
Qed.

(* ================================================================= *)
(** ** Ranges of the scores *)

Lemma prediction_value_range b l t :
  prediction_value b l t
  = Z.min 100 (b + Zsum (map weight (matching t l)))
  /\ b + Zsum (map (fun x => Z.min 0 (weight x)) l)
     <= b + Zsum (map weight (matching t l))
     <= b + Zsum (map (fun x => Z.max 0 (weight x)) l).
Proof.
  split; [reflexivity|]. unfold matching.
  pose proof (Zsum_filter_bounds weight (fun b => test (pattern b) t) l).
  lia.
Qed.

(** X1. The cap at 100 of the prediction pass never acts: every prediction
    of [analyzePost] is its baseline plus the matching weights, with reply
    in [30,56], favorite in [40,51], click in [25,38], repost in [20,34]
    and follow_author in [25,40]. *)
Theorem predictions_never_capped (lower : text -> text) (t : text)
  (o : Options) :
  exists reply favorite click repost follow,
    predictions (analyzePost lower t o)
    = [ ("P(reply)", reply); ("P(favorite)", favorite); ("P(click)", click);
        ("P(repost)", repost); ("P(follow_author)", follow) ]
    /\ reply = 30 + Zsum (map weight (matching t replyBoosters))
    /\ favorite = 40 + Zsum (map weight (matching t favoriteBoosters))
    /\ click = 25 + Zsum (map weight (matching t clickBoosters))
    /\ repost = 20 + Zsum (map weight (matching t shareBoosters))
    /\ follow = 25 + Zsum (map weight (matching t followBoosters))
    /\ 30 <= reply <= 56 /\ 40 <= favorite <= 51 /\ 25 <= click <= 38
    /\ 20 <= repost <= 34 /\ 25 <= follow <= 40.
Proof.
  destruct (analyzePost_spec lower t o) as (_ & _ & _ & P & _).
  rewrite P. unfold predictions_value.
  destruct (prediction_value_range 30 replyBoosters t) as [E1 B1].
  destruct (prediction_value_range 40 favoriteBoosters t) as [E2 B2].
  destruct (prediction_value_range 25 clickBoosters t) as [E3 B3].
  destruct (prediction_value_range 20 shareBoosters t) as [E4 B4].
  destruct (prediction_value_range 25 followBoosters t) as [E5 B5].
  change (Zsum (map (fun x => Z.min 0 (weight x)) replyBoosters))
    with 0 in B1.
  change (Zsum (map (fun x => Z.max 0 (weight x)) replyBoosters))
    with 26 in B1.
  change (Zsum (map (fun x => Z.min 0 (weight x)) favoriteBoosters))
    with 0 in B2.
  change (Zsum (map (fun x => Z.max 0 (weight x)) favoriteBoosters))
    with 11 in B2.
  change (Zsum (map (fun x => Z.min 0 (weight x)) clickBoosters))
    with 0 in B3.
  change (Zsum (map (fun x => Z.max 0 (weight x)) clickBoosters))
    with 13 in B3.
  change (Zsum (map (fun x => Z.min 0 (weight x)) shareBoosters))
    with 0 in B4.
  change (Zsum (map (fun x => Z.max 0 (weight x)) shareBoosters))
    with 14 in B4.
  change (Zsum (map (fun x => Z.min 0 (weight x)) followBoosters))
    with 0 in B5.
  change (Zsum (map (fun x => Z.max 0 (weight x)) followBoosters))
    with 15 in B5.
  rewrite E1, E2, E3, E4, E5.
  rewrite !Z.min_r by lia.
  do 5 eexists. split; [reflexivity|]. repeat split; lia.
Qed.

Lemma reply_below_50_without_question t :
  includes t qmark = false -> prediction_value 30 replyBoosters t < 50.
Proof.
  intros H. unfold prediction_value, matching, replyBoosters.
  cbn [filter pattern]. fold question_re.
  rewrite test_question_includes, H.
  repeat match goal with
         | |- context [if ?c then _ else _] => destruct c
         end; cbn [map weight Zsum fold_right]; lia.
Qed.

(** X2. Whatever the text, [analyzePost] recommends "Add a soft
    call-to-action" and "Add shareable value": the click and repost
    predictions cannot reach 40.  "Add a question" is recommended exactly
    when the text has no question mark, the reply prediction being below
    50 for such a text. *)
Theorem recommendations_simplified (lower : text -> text) (t : text)
  (o : Options) :
  exists follow,
    prediction (predictions (analyzePost lower t o)) "P(follow_author)"
      = Some follow
    /\ recommendations (analyzePost lower t o)
       = when (negb (includes t qmark)) rec_question
         ++ [rec_cta; rec_share]
         ++ when ((JS.length t >? 250) && not_thread o) rec_thread
         ++ when (follow <? 40) rec_community.
Proof.
  destruct (analyzePost_spec lower t o) as (T & _ & _ & P & _ & R).
  cbv zeta in *. rewrite R. unfold recommendations_value. rewrite T, P.
  unfold predictions_value. cbn [prediction String.eqb Ascii.eqb Bool.eqb].
  eexists. split; [reflexivity|]. unfold lt_num.
  destruct (prediction_value_range 25 clickBoosters t) as [E3 B3].
  destruct (prediction_value_range 20 shareBoosters t) as [E4 B4].
  change (Zsum (map (fun x => Z.max 0 (weight x)) clickBoosters))
    with 13 in B3.
  change (Zsum (map (fun x => Z.max 0 (weight x)) shareBoosters))
    with 14 in B4.
  replace (prediction_value 25 clickBoosters t <? 40) with true
    by (symmetry; apply Z.ltb_lt; lia).
  replace (prediction_value 20 shareBoosters t <? 40) with true
    by (symmetry; apply Z.ltb_lt; lia).
  destruct (includes t qmark) eqn:Hq.
  - rewrite andb_false_r. reflexivity.
  - pose proof (reply_below_50_without_question t Hq) as Hr.
    apply Z.ltb_lt in Hr. rewrite Hr. reflexivity.
Qed.

(** X3. The content-quality score of [analyzePost] lies in [60,86] and the
    format score in [45,80]: the clamps of the two passes never act, and
    the defaults the aggregation applies to a zero score are never used. *)
Theorem quality_and_format_ranges (lower : text -> text) (t : text)
  (o : Options) :
  exists q f,
    contentQuality (scores (analyzePost lower t o)) = Some q
    /\ format (scores (analyzePost lower t o)) = Some f
    /\ q = 60 + (if test informational_re t then 10 else 0)
              + (if test digits_re t then 8 else 0)
              + (if test hook_re (substring0 120 t) then 8 else 0)
    /\ 60 <= q <= 86 /\ 45 <= f <= 80
    /\ or_default (Some q) 50 = q /\ or_default (Some f) 50 = f.
Proof.
  destruct (analyzePost_spec lower t o) as (_ & _ & _ & _ & S & _).
  rewrite S. cbn [contentQuality format].
  exists (quality_value t), (format_value t o).
  assert (Hq : 60 <= quality_value t <= 86
               /\ quality_value t
                  = 60 + (if test informational_re t then 10 else 0)
                       + (if test digits_re t then 8 else 0)
                       + (if test hook_re (substring0 120 t) then 8 else 0)).
  { unfold quality_value.
    destruct (test informational_re t), (test digits_re t),
      (test hook_re (substring0 120 t)); lia. }
  assert (Hf : 45 <= format_value t o <= 80).
  { unfold format_value.
    destruct ((100 <=? JS.length t) && (JS.length t <=? 200)),
      (JS.length t <? 50), (String.eqb (media_of o) "video"),
      (String.eqb (media_of o) "image"), (String.eqb (media_of o) "thread");
      lia. }
  unfold or_default.
  destruct (Z.eqb_spec (quality_value t) 0); [lia|].
  destruct (Z.eqb_spec (format_value t o) 0); [lia|].
  repeat split; try reflexivity; lia.
Qed.

Lemma analyzePost_overall lower t o :
  exists sum q f s,
    overall (scores (analyzePost lower t o))
      = Some (of_Z (exact_overall sum q f s))
    /\ 140 <= sum <= 219 /\ 60 <= q <= 86 /\ 45 <= f <= 80
    /\ 27 <= s <= 100.
Proof.
  destruct (analyzePost_spec lower t o) as (_ & _ & _ & P & S & _).
  rewrite S. cbn [overall]. unfold predictions_value. cbn [map snd].
  set (a := prediction_value 30 replyBoosters t).
  set (b := prediction_value 40 favoriteBoosters t).
  set (c := prediction_value 25 clickBoosters t).
  set (d := prediction_value 20 shareBoosters t).
  set (e := prediction_value 25 followBoosters t).
  assert (Ha : In a replies) by apply prediction_value_candidate.
  assert (Hb : In b favorites) by apply prediction_value_candidate.
  assert (Hc : In c clicks) by apply prediction_value_candidate.
  assert (Hd : In d reposts) by apply prediction_value_candidate.
  assert (He : In e follows) by apply prediction_value_candidate.
  assert (Hsum : In (a + (b + (c + (d + e)))) sums)
    by (unfold sums; auto using add_lists_In).
  destruct (overall_from_exact _ _ _ _ Hsum (quality_value_candidate lower t)
              (format_value_candidate lower t o) (safety_value_candidate lower t))
    as [E _].
  exists (a + (b + (c + (d + e)))), (quality_value t), (format_value t o),
    (safety_value lower t).
  split.
  { unfold overall_number.
    rewrite (float_sum_exact a b c d e Ha Hb Hc Hd He). f_equal. exact E. }
  assert (R : forall lo hi x l, In x l ->
              forallb (fun y => (lo <=? y) && (y <=? hi)) l = true ->
              lo <= x <= hi).
  { intros lo hi x l Hx Hl. rewrite forallb_forall in Hl.
    specialize (Hl x Hx). apply andb_true_iff in Hl as [H1 H2].
    apply Z.leb_le in H1. apply Z.leb_le in H2. split; assumption. }
  pose proof (R 30 56 a replies Ha eq_refl).
  pose proof (R 40 51 b favorites Hb eq_refl).
  pose proof (R 25 38 c clicks Hc eq_refl).
  pose proof (R 20 34 d reposts Hd eq_refl).
  pose proof (R 25 40 e follows He eq_refl).
  pose proof (R 60 86 _ qualities (quality_value_candidate lower t) eq_refl).
  pose proof (R 45 80 _ formats (format_value_candidate lower t o) eq_refl).
  pose proof (R 27 100 _ safeties (safety_value_candidate lower t) eq_refl).
  repeat split; lia.
Qed.

(** X4. The overall score of [analyzePost] is an integer between 37 and
    66, and both ends are reached: no text scores above 66. *)
Theorem overall_between_37_and_66 (lower : text -> text) (t : text)
  (o : Options) :
  (exists k, overall (scores (analyzePost lower t o)) = Some (of_Z k)
             /\ 37 <= k <= 66)
  /\ overall (scores (analyzePost asciiLower best_text
                        (mkOptions (Some "video") None None)))
     = Some (of_Z 66)
  /\ overall (scores (analyzePost asciiLower worst_text no_options))
     = Some (of_Z 37).
Proof.
  split; [|split; vm_compute; reflexivity].
  destruct (analyzePost_overall lower t o)
    as (sum & q & f & s & E & Hsum & Hq & Hf & Hs).
  exists (exact_overall sum q f s). split; [exact E|].
  unfold exact_overall.
  split; [apply Z.div_le_lower_bound; lia|].
  apply Z.lt_succ_r, Z.div_lt_upper_bound; lia.
Qed.

Lemma Zsum_negative {A} (w : A -> Z) (l : list A) :
  Forall (fun x => w x < 0) l ->
  Zsum (map w l) <= 0 /\ (Zsum (map w l) = 0 -> l = []).
Proof.
  induction 1 as [|a l Ha Hl [IH1 IH2]]; simpl.
  - split; [lia|reflexivity].
  - unfold Zsum in *. simpl. split; [lia|]. intros E. lia.
Qed.

Lemma Forall_filter {A} (P : A -> Prop) (p : A -> bool) (l : list A) :
  Forall P l -> Forall P (filter p l).
Proof.
  rewrite !Forall_forall. intros H x Hx. apply filter_In in Hx. apply H, Hx.
Qed.

(** X5. The safety score of [analyzePost] is 100 exactly when no negative
    trigger and no spam check fires: every deduction shows in the score. *)
Theorem safety_full_iff_nothing_fired (lower : text -> text) (t : text)
  (o : Options) :
  safety (scores (analyzePost lower t o)) = Some 100
  <-> fired_triggers t = [] /\ fired_spam lower t = [].
Proof.
  destruct (analyzePost_spec lower t o) as (_ & _ & _ & _ & S & _).
  rewrite S. cbn [safety]. unfold safety_value.
  assert (Ht : Forall (fun n => n_weight n < 0) (fired_triggers t)).
  { apply Forall_filter. unfold negativeTriggers.
    repeat constructor. }
  assert (Hs : Forall (fun s => s_weight s < 0) (fired_spam lower t)).
  { apply Forall_filter. unfold spamIndicators. repeat constructor. }
  destruct (Zsum_negative _ _ Ht) as [A1 A2].
  destruct (Zsum_negative _ _ Hs) as [B1 B2].
  split.
  - intros E. injection E as E. split; [apply A2|apply B2]; lia.
  - intros [E1 E2]. rewrite E1, E2. reflexivity.
Qed.

(** X6. [analyzePost] reads nothing of the options but the media type:
    [goal] and [hasLink] do not change its result. *)
Theorem analyzePost_reads_mediaType_only (lower : text -> text) (t : text)
  (o o' : Options) :
  mediaType o = mediaType o' ->
  analyzePost lower t o = analyzePost lower t o'.
Proof.
  intros H.
  unfold analyzePost, analyzeFormat, generateRecommendations, not_thread.
  rewrite H. reflexivity.
Qed.

Lemma analyzePost_reads_mediaType_only_witness :
  analyzePost asciiLower (lit "gm frens")
    (mkOptions (Some "image") (Some "traffic") (Some true))
  = analyzePost asciiLower (lit "gm frens")
      (mkOptions (Some "image") None None).
Proof.
  apply (analyzePost_reads_mediaType_only asciiLower (lit "gm frens")
           (mkOptions (Some "image") (Some "traffic") (Some true))
           (mkOptions (Some "image") None None)).
  reflexivity.
Defined.

(* ================================================================= *)
(** ** The log of factors and warnings *)

Lemma fold_boost_log sig t l : forall acc,
  factors (snd (fold_left (boost sig t) l acc))
    = factors (snd acc) ++ map (booster_factor sig) (matching t l)
  /\ warnings (snd (fold_left (boost sig t) l acc)) = warnings (snd acc).
Proof.
  induction l as [|b l IH]; intros acc; simpl.
  - now rewrite app_nil_r.
  - destruct (IH (boost sig t acc b)) as [F W]. rewrite F, W.
    unfold boost. destruct (test (pattern b) t); simpl; [|auto].
    now rewrite <- app_assoc.
Qed.

Lemma fold_negative_log t l : forall acc,
  factors (snd (fold_left (negative_step t) l acc))
    = factors (snd acc)
      ++ map trigger_factor (filter (fun n => test (n_pattern n) t) l)
  /\ warnings (snd (fold_left (negative_step t) l acc))
     = warnings (snd acc)
       ++ map trigger_warning (filter (fun n => test (n_pattern n) t) l).
Proof.
  induction l as [|b l IH]; intros acc; simpl.
  - now rewrite !app_nil_r.
  - destruct (IH (negative_step t acc b)) as [F W]. rewrite F, W.
    unfold negative_step. destruct (test (n_pattern b) t); simpl; [|auto].
    now rewrite <- !app_assoc.
Qed.

Lemma fold_spam_log t l : forall acc,
  factors (snd (fold_left (spam_step t) l acc))
    = factors (snd acc) ++ map spam_factor (filter (fun s => check s t) l)
  /\ warnings (snd (fold_left (spam_step t) l acc))
     = warnings (snd acc)
       ++ map spam_warning (filter (fun s => check s t) l).
Proof.
  induction l as [|b l IH]; intros acc; simpl.
  - now rewrite !app_nil_r.
  - destruct (IH (spam_step t acc b)) as [F W]. rewrite F, W.
    unfold spam_step. destruct (check b t); simpl; [|auto].
    now rewrite <- !app_assoc.
Qed.

Lemma fold_muted_log t l : forall r,
  factors (fold_left (muted_step t) l r) = factors r
  /\ warnings (fold_left (muted_step t) l r)
     = warnings r
       ++ map muted_warning (filter (fun m => test (m_pattern m) t) l).
Proof.
  induction l as [|m l IH]; intros r; simpl.
  - now rewrite app_nil_r.
  - destruct (IH (muted_step t r m)) as [F W]. rewrite F, W.
    unfold muted_step. destruct (test (m_pattern m) t); simpl; [|auto].
    now rewrite <- !app_assoc.
Qed.

Lemma analyzePredictions_log t r :
  factors (analyzePredictions t r) = factors r ++ prediction_factors t
  /\ warnings (analyzePredictions t r) = warnings r.
Proof.
  unfold analyzePredictions, prediction_factors.
  step_fold (fold_boost_log "P(reply)" t).
  step_fold (fold_boost_log "P(favorite)" t).
  step_fold (fold_boost_log "P(click)" t).
  step_fold (fold_boost_log "P(repost)" t).
  step_fold (fold_boost_log "P(follow_author)" t).
  cbn [factors warnings with_predictions].
  rewrite Hs3, Hs2, Hs1, Hs0, Hs, Hr3, Hr2, Hr1, Hr0, Hr.
  now rewrite <- !app_assoc.
Qed.

Lemma analyzeContentQuality_log t r :
  factors (analyzeContentQuality t r) = factors r ++ quality_factors t
  /\ warnings (analyzeContentQuality t r) = warnings r.
Proof.
  unfold analyzeContentQuality, quality_factors, when.
  destruct (test informational_re t), (test digits_re t),
    (test hook_re (substring0 120 t)); cbn;
    rewrite <- ?app_assoc, ?app_nil_r; auto.
Qed.

Lemma analyzeNegativeSignals_log lower t r :
  factors (analyzeNegativeSignals lower t r)
    = factors r ++ map trigger_factor (fired_triggers t)
      ++ map spam_factor (fired_spam lower t)
  /\ warnings (analyzeNegativeSignals lower t r)
     = warnings r ++ map trigger_warning (fired_triggers t)
       ++ map spam_warning (fired_spam lower t)
       ++ map muted_warning (fired_muted t).
Proof.
  unfold analyzeNegativeSignals, fired_triggers, fired_spam, fired_muted.
  step_fold (fold_negative_log t).
  step_fold (fold_spam_log t).
  destruct (fold_muted_log t mutedRiskPatterns r1) as [F W].
  unfold set_safety, with_scores. cbn [factors warnings].
  rewrite F, W, Hs0, Hs, Hr0, Hr. now rewrite <- !app_assoc.
Qed.

Lemma analyzeFormat_log t o r :
  factors (analyzeFormat t o r) = factors r ++ format_factors t o
  /\ warnings (analyzeFormat t o r)
     = warnings r ++ when (JS.length t <? 50) length_warning.
Proof.
  unfold analyzeFormat, format_factors, when. fold (media_of o).
  destruct (Z.leb_spec 100 (JS.length t)), (Z.leb_spec (JS.length t) 200),
    (Z.ltb_spec (JS.length t) 50); try lia;
    destruct (String.eqb (media_of o) "video"),
      (String.eqb (media_of o) "image"), (String.eqb (media_of o) "thread");
    cbn; rewrite <- ?app_assoc, ?app_nil_r; auto.
Qed.

(** X7. The warnings of [analyzePost] are, in this order: one per fired
    negative trigger (typed by its signal), one "spam" warning per fired
    spam check, one per matching muted-risk pattern with its risk level,
    and last the "length" warning exactly when the text has fewer than 50
    characters. *)
Theorem warnings_in_order (lower : text -> text) (t : text) (o : Options) :
  warnings (analyzePost lower t o)
  = map trigger_warning (fired_triggers t)
    ++ map spam_warning (fired_spam lower t)
    ++ map muted_warning (fired_muted t)
    ++ when (JS.length t <? 50) length_warning.
Proof.
  unfold analyzePost.
  set (r0 := mkResult t _ _ _ _ _ _ _).
  cbn [warnings generateRecommendations with_recommendations
       calculateOverallScore set_overall with_scores].
  destruct (analyzeFormat_log t o
              (analyzeNegativeSignals lower t
                 (analyzeContentQuality t (analyzePredictions t r0))))
    as [_ W4].
  destruct (analyzeNegativeSignals_log lower t
              (analyzeContentQuality t (analyzePredictions t r0)))
    as [_ W3].
  destruct (analyzeContentQuality_log t (analyzePredictions t r0))
    as [_ W2].
  destruct (analyzePredictions_log t r0) as [_ W1].
  rewrite W4, W3, W2, W1. unfold r0. cbn [warnings app].
  now rewrite <- !app_assoc.
Qed.

(** X8. The factors of [analyzePost] are, in this order: one "+weight"
    factor per matching booster, category by category (reply, favorite,
    click, repost, follow_author), the content-quality factors, one factor
    per fired negative trigger, one "Spam risk" factor per fired spam
    check, and the factors of the format pass; a muted-risk pattern or a
    short text logs no factor. *)
Theorem factors_in_order (lower : text -> text) (t : text) (o : Options) :
  factors (analyzePost lower t o)
  = prediction_factors t ++ quality_factors t
    ++ map trigger_factor (fired_triggers t)
    ++ map spam_factor (fired_spam lower t)
    ++ format_factors t o.
Proof.
  unfold analyzePost.
  set (r0 := mkResult t _ _ _ _ _ _ _).
  cbn [factors generateRecommendations with_recommendations
       calculateOverallScore set_overall with_scores].
  destruct (analyzeFormat_log t o
              (analyzeNegativeSignals lower t
                 (analyzeContentQuality t (analyzePredictions t r0))))
    as [F4 _].
  destruct (analyzeNegativeSignals_log lower t
              (analyzeContentQuality t (analyzePredictions t r0)))
    as [F3 _].
  destruct (analyzeContentQuality_log t (analyzePredictions t r0))
    as [F2 _].
  destruct (analyzePredictions_log t r0) as [F1 _].
  rewrite F4, F3, F2, F1. unfold r0. cbn [factors app].
  now rewrite <- !app_assoc.
Qed.

(* ================================================================= *)
(** ** Variants *)

Lemma includes_rev t c : includes (rev t) c = includes t c.
Proof.
  destruct (includes t c) eqn:E.
  - apply includes_In. apply -> in_rev. apply includes_In, E.
  - destruct (includes (rev t) c) eqn:E2; auto.
    apply includes_In in E2. apply in_rev in E2. apply includes_In in E2.
    congruence.
Qed.

Lemma includes_trimStart t c :
  is_space c = false -> includes (trimStart t) c = includes t c.
Proof.
  intros Hc. induction t as [|x t IH]; [reflexivity|].
  cbn [trimStart]. destruct (is_space x) eqn:Hx; [|reflexivity].
  rewrite IH. unfold includes. cbn [existsb].
  destruct (N.eqb_spec c x); [congruence|reflexivity].
Qed.

Lemma includes_trim t c :
  is_space c = false -> includes (trim t) c = includes t c.
Proof.
  intros Hc. unfold trim.
  now rewrite includes_rev, includes_trimStart, includes_rev,
    includes_trimStart.
Qed.

(** X9. [generateOptimizedVariants] throws exactly when the text is longer
    than 150 characters and no sentence with a non-blank character is left;
    otherwise it returns "Primary Optimized" and "Conversation Starter",
    then "Short & Punchy" iff at least two sentences are left, then
    "Thread Opener" iff the text is longer than 150 characters. *)
Theorem variants_outcome (t : text) (analysis : AnalysisResult)
  (options : Options) :
  (generateOptimizedVariants t analysis options = TypeError
   <-> JS.length t > 150 /\ sentences_of t = [])
  /\ (forall vs,
        generateOptimizedVariants t analysis options = Normal vs ->
        map v_type vs
        = ["Primary Optimized"; "Conversation Starter"]
          ++ when (2 <=? Z.of_nat (List.length (sentences_of t)))
               "Short & Punchy"
          ++ when (JS.length t >? 150) "Thread Opener").
Proof.
  unfold generateOptimizedVariants. fold (sentences_of t). cbn [app].
  destruct (Z.gtb_spec (JS.length t) 150) as [Hl|Hl];
    destruct (sentences_of t) as [|s0 [|s1 l]]; cbn [List.length].
  - split; [split; [intros _; split; [lia|reflexivity]|reflexivity]|].
    intros vs H. discriminate.
  - split; [split; [discriminate|intros [_ H]; discriminate]|].
    intros vs H. injection H as <-. reflexivity.
  - split; [split; [discriminate|intros [_ H]; discriminate]|].
    intros vs H. injection H as <-.
    replace (2 <=? Z.of_nat (S (S (List.length l)))) with true
      by (symmetry; apply Z.leb_le; lia).
    reflexivity.
  - split; [split; [discriminate|intros [H _]; lia]|].
    intros vs H. injection H as <-. reflexivity.
  - split; [split; [discriminate|intros [H _]; lia]|].
    intros vs H. injection H as <-. reflexivity.
  - split; [split; [discriminate|intros [H _]; lia]|].
    intros vs H. injection H as <-.
    replace (2 <=? Z.of_nat (S (S (List.length l)))) with true
      by (symmetry; apply Z.leb_le; lia).
    reflexivity.
Qed.

Lemma text_eqb_eq a b : text_eqb a b = true <-> a = b.
Proof.
  revert b. induction a as [|x a IH]; intros [|y b]; simpl.
  - split; reflexivity.
  - split; discriminate.
  - split; discriminate.
  - rewrite andb_true_iff, N.eqb_eq, IH. split.
    + intros [-> ->]. reflexivity.
    + intros E. injection E. auto.
Qed.

Lemma trimStart_length s :
  (List.length (trimStart s) <= List.length s)%nat
  /\ (List.length (trimStart s) = List.length s -> trimStart s = s).
Proof.
  induction s as [|c s [IH1 IH2]]; [auto|]. cbn [trimStart].
  destruct (is_space c); [|auto]. cbn [List.length]. split; lia.
Qed.

Lemma trim_length s :
  (List.length (trim s) <= List.length s)%nat
  /\ (List.length (trim s) = List.length s -> trim s = s).
Proof.
  unfold trim. rewrite length_rev.
  destruct (trimStart_length (rev (trimStart s))) as [A1 A2].
  destruct (trimStart_length s) as [B1 B2].
  rewrite length_rev in A1, A2. split; [lia|]. intros E.
  rewrite A2 by lia. rewrite rev_involutive. apply B2. lia.
Qed.

Lemma variants_head t analysis options vs :
  generateOptimizedVariants t analysis options = Normal vs ->
  exists rest,
    vs = mkVariant "Primary Optimized"
           (if lt_num (prediction (predictions analysis) "P(reply)") 50
               && negb (includes t qmark)
            then trim t ++ thoughts_suffix else trim t)
           (getChanges t
              (if lt_num (prediction (predictions analysis) "P(reply)") 50
                  && negb (includes t qmark)
               then trim t ++ thoughts_suffix else trim t))
           "Balanced optimization for engagement"
         :: mkVariant "Conversation Starter" (trim t ++ conv_suffix)
              ["Added direct reply invitation"]
              "Significantly increases P(reply)"
         :: rest.
Proof.
  unfold generateOptimizedVariants. fold thoughts_suffix. cbn [app].
  destruct (filter _ (split sentence_end_re t)) as [|s0 [|s1 l]];
    destruct (JS.length t >? 150); intros H; try discriminate;
    injection H as <-; eexists; reflexivity.
Qed.

Lemma own_reply_condition lower t o :
  lt_num (prediction (predictions (analyzePost lower t o)) "P(reply)") 50
  && negb (includes t qmark) = negb (includes t qmark).
Proof.
  destruct (analyzePost_spec lower t o) as (_ & _ & _ & P & _).
  rewrite P. unfold predictions_value.
  cbn [prediction String.eqb Ascii.eqb Bool.eqb lt_num].
  destruct (includes t qmark) eqn:Hq; [apply andb_false_r|].
  pose proof (reply_below_50_without_question t Hq) as Hr.
  apply Z.ltb_lt in Hr. rewrite Hr. reflexivity.
Qed.

(** X10. On the text's own analysis the "Primary Optimized" variant is the
    trimmed text when the text has a question mark, its only change being
    "Structure optimized"; otherwise it is the trimmed text followed by a
    blank line and "Thoughts?", with the change "Added question", and
    "Added engagement hook" as well exactly when the text has no leading
    or trailing whitespace. *)
Theorem primary_variant_of_own_analysis (lower : text -> text) (t : text)
  (o o' : Options) (vs : list Variant) :
  generateOptimizedVariants t (analyzePost lower t o) o' = Normal vs ->
  exists v rest,
    vs = v :: rest /\ v_type v = "Primary Optimized"
    /\ content v = primary_content t
    /\ changes v = primary_changes t.
Proof.
  intros H. apply variants_head in H as [rest ->].
  rewrite own_reply_condition. unfold primary_content, primary_changes.
  eexists _, _. split; [reflexivity|]. cbn [v_type content changes].
  split; [reflexivity|]. unfold getChanges.
  destruct (includes t qmark) eqn:Hq; cbn [negb].
  - split; [reflexivity|].
    rewrite includes_trim, Hq by reflexivity. cbn [andb negb app].
    destruct (trim_length t) as [Hle _].
    replace (JS.length (trim t) >? JS.length t + 10) with false
      by (symmetry; rewrite Z.gtb_ltb; apply Z.ltb_ge; unfold JS.length; lia).
    reflexivity.
  - split; [reflexivity|].
    rewrite includes_app. replace (includes thoughts_suffix qmark)
      with true by reflexivity.
    rewrite orb_true_r. cbn [andb negb app].
    destruct (trim_length t) as [Hle Heq].
    assert (L : JS.length (trim t ++ thoughts_suffix)
                = JS.length (trim t) + 11).
    { unfold JS.length. rewrite length_app. cbn [List.length thoughts_suffix].
      change (List.length thoughts_suffix) with 11%nat. lia. }
    rewrite L. unfold when.
    destruct (text_eqb (trim t) t) eqn:E.
    + apply text_eqb_eq in E. rewrite E.
      replace (JS.length t + 11 >? JS.length t + 10) with true
        by (symmetry; rewrite Z.gtb_ltb; apply Z.ltb_lt; lia).
      reflexivity.
    + replace (JS.length (trim t) + 11 >? JS.length t + 10) with false;
        [reflexivity|].
      symmetry. rewrite Z.gtb_ltb. apply Z.ltb_ge.
      assert (List.length (trim t) <> List.length t).
      { intros El. apply Heq in El. apply text_eqb_eq in El. congruence. }
      unfold JS.length. lia.
Qed.

Lemma primary_variant_witness :
  exists v rest,
    gm_variants = v :: rest /\ v_type v = "Primary Optimized"
    /\ content v = primary_content (lit "gm frens")
    /\ changes v = primary_changes (lit "gm frens").
Proof.
  apply (primary_variant_of_own_analysis asciiLower (lit "gm frens")
           no_options no_options gm_variants).
  vm_compute. reflexivity.
Defined.

Lemma no_question_recommendation lower t o :
  includes t qmark = true ->
  ~ In rec_question (recommendations (analyzePost lower t o)).
Proof.
  intros Hq. destruct (analyzePost_spec lower t o) as (T & _ & _ & _ & _ & R).
  cbv zeta in *. rewrite R. unfold recommendations_value. rewrite T, Hq.
  rewrite andb_false_r. unfold when. cbn [app].
  repeat match goal with
         | |- context [if ?c then _ else _] => destruct c
         end; cbn [app In]; intros H;
    repeat (destruct H as [H|H]; [discriminate|]); exact H.
Qed.

(** X11. On the text's own analysis the first two variants both contain a
    question mark, so analysing either of them never recommends "Add a
    question". *)
Theorem variants_answer_the_question_advice (lower : text -> text)
  (t : text) (o o' : Options) (vs : list Variant) :
  generateOptimizedVariants t (analyzePost lower t o) o' = Normal vs ->
  exists v1 v2 rest,
    vs = v1 :: v2 :: rest
    /\ includes (content v1) qmark = true
    /\ includes (content v2) qmark = true
    /\ forall lower' o'',
         ~ In rec_question
             (recommendations (analyzePost lower' (content v1) o''))
         /\ ~ In rec_question
               (recommendations (analyzePost lower' (content v2) o'')).
Proof.
  intros H. apply variants_head in H as [rest ->].
  rewrite own_reply_condition. eexists _, _, _. split; [reflexivity|].
  cbn [content].
  assert (H1 : includes (if negb (includes t qmark)
                         then trim t ++ thoughts_suffix else trim t) qmark
               = true).
  { destruct (includes t qmark) eqn:Hq; cbn [negb].
    - now rewrite includes_trim.
    - rewrite includes_app. apply orb_true_r. }
  assert (H2 : includes (trim t ++ conv_suffix) qmark = true).
  { rewrite includes_app. apply orb_true_r. }
  repeat split; auto using no_question_recommendation.
Qed.

Lemma variants_answer_witness :
  exists v1 v2 rest,
    gm_variants = v1 :: v2 :: rest
    /\ includes (content v1) qmark = true
    /\ includes (content v2) qmark = true
    /\ forall lower' o'',
         ~ In rec_question
             (recommendations (analyzePost lower' (content v1) o''))
         /\ ~ In rec_question
               (recommendations (analyzePost lower' (content v2) o'')).
Proof.
  apply (variants_answer_the_question_advice asciiLower (lit "gm frens")
           no_options no_options gm_variants).
  vm_compute. reflexivity.
Defined.

(* ================================================================= *)
(** ** Posting strategy *)

Lemma In_when {A} (c : bool) (x y : A) : In x (when c y) <-> c = true /\ x = y.
Proof.
  unfold when. destruct c; simpl; split; try tauto.
  - intros [H|[]]. auto.
  - intros [_ ->]. auto.
  - intros [H _]. discriminate.
Qed.

(** X12. The strategy format is "thread" exactly when the text is longer
    than 200 characters and the media type is not "thread", and "single"
    otherwise; [analyzePost] recommends "Consider thread format" exactly
    when the text is longer than 250 characters and the media type is not
    "thread".  So a recommended thread is always the strategy's format,
    while texts of 201 to 250 characters get the thread strategy without
    the recommendation. *)
Theorem thread_strategy_and_recommendation (lower : text -> text)
  (t : text) (o : Options) :
  (s_format (generatePostingStrategy (analyzePost lower t o) o) = "thread"
   <-> JS.length t > 200 /\ mediaType o <> Some "thread")
  /\ (s_format (generatePostingStrategy (analyzePost lower t o) o) = "single"
      <-> ~ (JS.length t > 200 /\ mediaType o <> Some "thread"))
  /\ (In rec_thread (recommendations (analyzePost lower t o))
      <-> JS.length t > 250 /\ mediaType o <> Some "thread")
  /\ (In rec_thread (recommendations (analyzePost lower t o)) ->
      s_format (generatePostingStrategy (analyzePost lower t o) o)
      = "thread").
Proof.
  destruct (analyzePost_spec lower t o) as (T & _ & _ & _ & _ & R).
  cbv zeta in *.
  assert (S1 : s_format (generatePostingStrategy (analyzePost lower t o) o)
               = if (JS.length t >? 200) && not_thread o
                 then "thread" else "single").
  { unfold generatePostingStrategy. rewrite T.
    destruct ((JS.length t >? 200) && not_thread o), (is_video o),
      (truthy (hasLink o)), (is_traffic o); cbn [s_format]; reflexivity. }
  assert (C1 : (JS.length t >? 200) && not_thread o = true
               <-> JS.length t > 200 /\ mediaType o <> Some "thread").
  { rewrite andb_true_iff, not_thread_spec, Z.gtb_ltb, Z.ltb_lt.
    split; intros [H1 H2]; (split; [lia|assumption]). }
  assert (R1 : In rec_thread (recommendations (analyzePost lower t o))
               <-> JS.length t > 250 /\ mediaType o <> Some "thread").
  { rewrite R. unfold recommendations_value. rewrite T.
    rewrite !in_app_iff, !In_when. split.
    - intros [[_ H]|[[_ H]|[[_ H]|[[H _]|[_ H]]]]]; try discriminate.
      apply andb_true_iff in H as [H1 H2]. apply not_thread_spec in H2.
      rewrite Z.gtb_ltb in H1. apply Z.ltb_lt in H1.
      split; [lia|assumption].
    - intros [H1 H2]. right. right. right. left. split; [|reflexivity].
      apply andb_true_iff. split; [|apply not_thread_spec; assumption].
      rewrite Z.gtb_ltb. apply Z.ltb_lt. lia. }
  rewrite S1.
  destruct ((JS.length t >? 200) && not_thread o).
  - pose proof (proj1 C1 eq_refl) as E.
    repeat split; try tauto; try apply R1; try discriminate.
  - assert (N : ~ (JS.length t > 200 /\ mediaType o <> Some "thread")).
    { intros H. apply C1 in H. discriminate. }
    repeat split; try tauto; try apply R1; try discriminate.
    intros H. apply R1 in H. exfalso. apply N. split; [lia|tauto].
Qed.

(* ================================================================= *)
(** ** Counting words *)

Lemma split_from_total ic r : forall s prev skip cur,
  (total_length (split_from ic r prev s skip cur)
   <= List.length s + List.length cur)%nat.
Proof.
  induction s as [|c s IH]; intros prev skip cur.
  - cbn [split_from total_length fold_right]. rewrite length_rev. lia.
  - destruct skip as [|n]; cbn [split_from].
    + destruct (match_at ic r prev (c :: s)) as [rest|].
      * destruct (List.length (c :: s) - List.length rest)%nat as [|n].
        -- destruct cur as [|x cur].
           ++ pose proof (IH (Some c) 0%nat [c]) as H.
              cbn [List.length] in *. lia.
           ++ pose proof (IH (Some c) 0%nat [c]) as H.
              cbn [total_length fold_right]. fold (total_length
                (split_from ic r (Some c) s 0 [c])).
              rewrite length_rev. cbn [List.length] in *. lia.
        -- pose proof (IH (Some c) n []) as H.
           cbn [total_length fold_right]. fold (total_length
             (split_from ic r (Some c) s n [])).
           rewrite length_rev. cbn [List.length] in *. lia.
      * pose proof (IH (Some c) 0%nat (c :: cur)) as H.
        cbn [List.length] in *. lia.
    + pose proof (IH (Some c) n cur) as H. cbn [List.length]. lia.
Qed.

Lemma nonempty_count (l : list text) :
  (List.length (filter nonempty l) <= total_length l)%nat.
Proof.
  induction l as [|w l IH]; [auto|]. cbn [filter total_length fold_right].
  fold (total_length l). destruct w; cbn [nonempty List.length]; lia.
Qed.

(** X13. The word count of [analyzePost] never exceeds its character
    count, and the pieces [split] returns hold no more characters than the
    text. *)
Theorem wordCount_at_most_charCount (lower : text -> text) (t : text)
  (o : Options) :
  0 <= wordCount (analyzePost lower t o) <= charCount (analyzePost lower t o)
  /\ charCount (analyzePost lower t o) = JS.length t
  /\ (total_length (split spaces_re t) <= List.length t)%nat.
Proof.
  destruct (analyzePost_spec lower t o) as (_ & C & W & _).
  cbv zeta in *. rewrite C, W.
  assert (H : (total_length (split spaces_re t) <= List.length t)%nat).
  { unfold split. destruct t as [|c t].
    - destruct (match_at _ _ None []); cbn; lia.
    - pose proof (split_from_total (ignoreCase spaces_re) (source spaces_re)
                    (c :: t) None 0%nat []) as H.
      cbn [List.length] in *. lia. }
  pose proof (nonempty_count (split spaces_re t)).
  unfold JS.length. repeat split; lia.
Qed.

(* ================================================================= *)
(** ** The spam checks *)

Lemma plus_loop_rest p : forall s last,
  plus_loop p last s (fun _ rest => Some rest) = Some (drop_while p s).
Proof.
  induction s as [|c s IH]; intros last; cbn [plus_loop drop_while].
  - reflexivity.
  - destruct (p c); [|reflexivity]. rewrite IH. reflexivity.
Qed.

Lemma drop_while_prefix p : forall s,
  (List.length (drop_while p s) <= List.length s)%nat
  /\ forallb p (firstn (List.length s - List.length (drop_while p s)) s)
     = true.
Proof.
  induction s as [|c s [IH1 IH2]]; cbn [drop_while].
  - split; reflexivity.
  - destruct (p c) eqn:E.
    + split; [cbn [List.length]; lia|].
      replace (List.length (c :: s) - List.length (drop_while p s))%nat
        with (S (List.length s - List.length (drop_while p s)))
        by (cbn [List.length]; lia).
      cbn [firstn forallb]. rewrite E, IH2. reflexivity.
    + split; [lia|]. rewrite Nat.sub_diag. reflexivity.
Qed.

Lemma match_at_hashtag prev s :
  match_at false (source hashtag_re) prev s
  = match s with
    | c :: d :: s' =>
        if (c =? 35)%N && is_word d then Some (drop_while is_word s')
        else None
    | _ => None
    end.
Proof.
  unfold match_at, hashtag_re. cbn [source rmatch].
  change (lit "#") with [35%N]. cbn [str_match].
  destruct s as [|c [|d s']]; [reflexivity| |].
  - unfold char_eq. rewrite N.eqb_sym. destruct (c =? 35)%N; reflexivity.
  - unfold char_eq. rewrite N.eqb_sym.
    destruct (c =? 35)%N; cbn [andb rmatch]; [|reflexivity].
    destruct (is_word d); [apply plus_loop_rest|reflexivity].
Qed.

Lemma count_matches_hashtag : forall s prev skip,
  forallb is_word (firstn skip s) = true ->
  count_matches false (source hashtag_re) prev s skip = hashtags s.
Proof.
  induction s as [|c s IH]; intros prev skip Hskip.
  - cbn [count_matches hashtags]. rewrite match_at_hashtag.
    destruct skip; reflexivity.
  - destruct skip as [|n]; cbn [count_matches hashtags].
    + rewrite match_at_hashtag. destruct s as [|d s'].
      * rewrite andb_false_r. apply (IH (Some c) 0%nat). reflexivity.
      * cbn [hd_error is_word_opt].
        destruct ((c =? 35)%N && is_word d) eqn:E.
        -- rewrite (IH (Some c)); [reflexivity|].
           destruct (drop_while_prefix is_word s') as [L P].
           apply andb_true_iff in E as [_ Hd].
           replace (List.length (c :: d :: s')
                    - List.length (drop_while is_word s') - 1)%nat
             with (S (List.length s'
                      - List.length (drop_while is_word s')))
             by (cbn [List.length]; lia).
           cbn [firstn forallb]. rewrite Hd, P. reflexivity.
        -- apply (IH (Some c) 0%nat). reflexivity.
    + cbn [firstn forallb] in Hskip. apply andb_true_iff in Hskip as [Hc Hn].
      rewrite (IH (Some c) n Hn).
      replace (c =? 35)%N with false; [reflexivity|].
      symmetry. apply N.eqb_neq. intros ->. discriminate.
Qed.

(** X14. The hashtag check of the spam pass fires exactly when more than
    three positions of the text hold a [#] followed by a letter, a digit
    or an underscore: the matches of [/#\w+/g] are counted by their
    starts. *)
Theorem excessive_hashtags_counts_starts (t : text) :
  match_count hashtag_re t = Z.of_nat (hashtags t)
  /\ excessive_hashtags t = (3 <? Z.of_nat (hashtags t)).
Proof.
  assert (E : match_count hashtag_re t = Z.of_nat (hashtags t)).
  { unfold match_count. f_equal.
    apply (count_matches_hashtag t None 0%nat). reflexivity. }
  split; [exact E|]. unfold excessive_hashtags. rewrite E.
  apply Z.gtb_ltb.
Qed.

Lemma count_matches_set p : forall s prev,
  count_matches false (RSet p) prev s 0 = List.length (filter p s).
Proof.
  induction s as [|c s IH]; intros prev; [reflexivity|].
  cbn [count_matches filter]. unfold match_at. cbn [rmatch].
  destruct (p c); [|apply IH]. cbn [List.length].
  replace (S (List.length s) - List.length s - 1)%nat with 0%nat by lia.
  now rewrite IH.
Qed.

Lemma caps_exact_true : caps_exact = true.
Proof. vm_cast_no_check (eq_refl true). Qed.

Lemma caps_ratio_exact (n c : nat) :
  (1 <= n <= 280)%nat -> (c <= n)%nat ->
  SFltb (decimal 5 1) (div (of_Z (Z.of_nat c)) (of_Z (Z.of_nat n)))
  = (Z.of_nat n <? 2 * Z.of_nat c).
Proof.
  intros Hn Hc. apply Bool.eqb_prop.
  assert (In1 : In n (seq 1 280)) by (apply in_seq; lia).
  assert (In2 : In c (seq 0 (S n))) by (apply in_seq; lia).
  exact (forallb_In _ _ c (forallb_In _ _ n caps_exact_true In1) In2).
Qed.

(** X15. For a text of at most 280 code units the caps check of the spam
    pass, computed as a ratio of doubles compared with 0.5, fires exactly
    when more than half of the code units are ASCII capitals; on the empty
    text the guarded division gives 0 and the check does not fire. *)
Theorem excessive_caps_exact (t : text) :
  JS.length t <= 280 ->
  excessive_caps t
  = (JS.length t <? 2 * Z.of_nat (List.length (filter is_upper t))).
Proof.
  intros Hl. unfold excessive_caps, match_count, upper_re.
  cbn [source ignoreCase]. rewrite count_matches_set.
  pose proof (filter_length_le is_upper t) as Hc.
  destruct t as [|x t]; [vm_compute; reflexivity|].
  unfold JS.length in *. rewrite Z.max_l by (cbn [List.length]; lia).
  apply caps_ratio_exact; cbn [List.length] in *; lia.
Qed.

Lemma excessive_caps_exact_witness :
  excessive_caps (lit "GM Frens")
  = (JS.length (lit "GM Frens")
     <? 2 * Z.of_nat (List.length (filter is_upper (lit "GM Frens")))).
Proof.
  apply (excessive_caps_exact (lit "GM Frens")). vm_compute. discriminate.
Defined.

Lemma text_eqb_refl a : text_eqb a a = true.
Proof. now apply text_eqb_eq. Qed.

Lemma occurrences_app k seen k' :
  occurrences k (seen ++ [k'])
  = (occurrences k seen + (if text_eqb k k' then 1 else 0))%nat.
Proof.
  unfold occurrences. rewrite filter_app, length_app. cbn [filter].
  destruct (text_eqb k k'); reflexivity.
Qed.

Lemma occurrences_In k seen : (1 <= occurrences k seen)%nat <-> In k seen.
Proof.
  unfold occurrences. split.
  - intros H. destruct (filter (text_eqb k) seen) as [|x l] eqn:E;
      [cbn in H; lia|].
    assert (Hx : In x (filter (text_eqb k) seen)) by (rewrite E; now left).
    apply filter_In in Hx as [Hx Hk]. apply text_eqb_eq in Hk. now subst.
  - intros H.
    assert (Hk : In k (filter (text_eqb k) seen))
      by (apply filter_In; split; [exact H|apply text_eqb_refl]).
    destruct (filter (text_eqb k) seen); [destruct Hk|cbn; lia].
Qed.

Lemma own_In o k v : own o k = Some v -> In (k, v) o.
Proof.
  induction o as [|[k' v'] o IH]; cbn [own]; [discriminate|].
  destruct (text_eqb k k') eqn:E.
  - intros H. apply text_eqb_eq in E. left. congruence.
  - intros H. right. auto.
Qed.

Lemma put_In o k v k1 v1 :
  In (k1, v1) (put o k v) -> (k1 = k /\ v1 = v) \/ In (k1, v1) o.
Proof.
  induction o as [|[k' v'] o IH]; cbn [put].
  - intros [H|[]]. left. split; congruence.
  - destruct (text_eqb k k') eqn:E.
    + apply text_eqb_eq in E. subst k'. intros [H|H].
      * left. split; congruence.
      * right. now right.
    + intros [H|H]; [right; now left|].
      destruct (IH H) as [H1|H1]; [now left|right; now right].
Qed.

Lemma own_put o k v k1 :
  own (put o k v) k1 = if text_eqb k1 k then Some v else own o k1.
Proof.
  induction o as [|[k' v'] o IH]; cbn [put own]; [reflexivity|].
  destruct (text_eqb k k') eqn:E; cbn [own].
  - apply text_eqb_eq in E. subst k'. destruct (text_eqb k1 k); reflexivity.
  - rewrite IH. destruct (text_eqb k1 k') eqn:E1; [|reflexivity].
    destruct (text_eqb k1 k) eqn:E2; [|reflexivity].
    apply text_eqb_eq in E1, E2. subst. rewrite text_eqb_refl in E.
    discriminate.
Qed.

Lemma not_inherited_not_proto k :
  inherited k = false -> text_eqb k (lit "__proto__") = false.
Proof.
  intros H. destruct (text_eqb k (lit "__proto__")) eqn:E; [|reflexivity].
  assert (I : inherited k = true).
  { apply existsb_exists. exists (lit "__proto__"). split; [|exact E].
    unfold prototype_keys. cbn [map]. do 10 right. now left. }
  congruence.
Qed.

Lemma count_key_counts o seen k :
  inherited k = false -> counts o seen ->
  counts (count_key o k) (seen ++ [k]).
Proof.
  intros Hk [J K]. unfold count_key, set.
  rewrite (not_inherited_not_proto k Hk).
  assert (V : or0_plus1 (get o k)
              = VNumber (Z.of_nat (occurrences k seen + 1))).
  { unfold get.
    change (existsb (text_eqb k) prototype_keys) with (inherited k).
    rewrite Hk. destruct (occurrences k seen) as [|m] eqn:Eo.
    - destruct (own o k) as [v|] eqn:E; [|reflexivity].
      apply own_In in E. destruct (J _ _ E) as (n & _ & Hn). lia.
    - assert (Hin : In k seen) by (apply occurrences_In; lia).
      rewrite (K k Hin), Eo. cbn [or0_plus1].
      destruct (Z.eqb_spec (Z.of_nat (S m)) 0); [lia|]. f_equal. lia. }
  rewrite V. split.
  - intros k1 v1 H. apply put_In in H as [[-> ->]|H].
    + exists (occurrences k seen + 1)%nat. split; [reflexivity|].
      rewrite occurrences_app, text_eqb_refl. lia.
    + destruct (J _ _ H) as (n & -> & Hn). exists n. split; [reflexivity|].
      rewrite occurrences_app. lia.
  - intros k1 H. rewrite own_put, occurrences_app.
    destruct (text_eqb k1 k) eqn:E.
    + apply text_eqb_eq in E. subst k1. reflexivity.
    + apply in_app_or in H as [H|[H|[]]].
      * rewrite (K k1 H). do 3 f_equal. lia.
      * subst k1. rewrite text_eqb_refl in E. discriminate.
Qed.

Lemma fold_count_key_counts keys : forall o seen,
  forallb (fun k => negb (inherited k)) keys = true ->
  counts o seen ->
  counts (fold_left count_key keys o) (seen ++ keys).
Proof.
  induction keys as [|k keys IH]; intros o seen Hk Ho; cbn [fold_left].
  - now rewrite app_nil_r.
  - cbn [forallb] in Hk. apply andb_true_iff in Hk as [H1 H2].
    apply negb_true_iff in H1.
    replace (seen ++ k :: keys) with ((seen ++ [k]) ++ keys)
      by now rewrite <- app_assoc.
    apply IH; [exact H2|]. now apply count_key_counts.
Qed.

Lemma fold_count_word lower ws : forall o,
  fold_left (count_word lower) ws o = fold_left count_key (map lower ws) o.
Proof. induction ws as [|w ws IH]; intros o; [reflexivity|apply IH]. Qed.

Lemma Math_max_numbers m vs : forall acc,
  (forall v, In v vs -> exists n, v = VNumber n) ->
  acc <> NaN ->
  gt (fold_left max_step vs acc) m = gt acc m || existsb (above m) vs.
Proof.
  induction vs as [|v vs IH]; intros acc Hv Hacc; cbn [fold_left existsb].
  - now rewrite orb_false_r.
  - destruct (Hv v (or_introl eq_refl)) as [n ->].
    rewrite IH.
    + rewrite orb_assoc. f_equal.
      destruct acc as [| |a]; [reflexivity|congruence|].
      cbn [max_step gt above].
      destruct (Z.ltb_spec m (Z.max a n)), (Z.ltb_spec m a),
        (Z.ltb_spec m n); try reflexivity; lia.
    + intros w Hw. apply Hv. now right.
    + destruct acc; cbn [max_step]; congruence.
Qed.

(** X16. When no lower-cased piece of the text is the name of a property
    of [Object.prototype], the repetition check of the spam pass fires
    exactly when some lower-cased piece occurs more than three times and
    [split] returns more than ten pieces, the empty pieces around leading
    and trailing whitespace included. *)
Theorem word_repetition_counts (lower : text -> text) (t : text) :
  forallb (fun k => negb (inherited k)) (counted_keys lower t) = true ->
  word_repetition lower t
  = existsb (fun k => 3 <? Z.of_nat (occurrences k (counted_keys lower t)))
      (counted_keys lower t)
    && (Z.of_nat (List.length (split spaces_re t)) >? 10).
Proof.
  intros Hk. unfold word_repetition. f_equal.
  rewrite fold_count_word. fold (counted_keys lower t).
  set (keys := counted_keys lower t) in *.
  assert (C : counts (fold_left count_key keys []) keys).
  { apply (fold_count_key_counts keys [] [] Hk). split.
    - intros k v [].
    - intros k []. }
  set (o := fold_left count_key keys []) in *. destruct C as [J K].
  unfold Math_max. rewrite Math_max_numbers; [|
    intros v Hv; apply in_map_iff in Hv as ([k w] & <- & Hin);
    destruct (J _ _ Hin) as (n & -> & _); cbn [snd]; eauto | discriminate].
  cbn [gt orb].
  destruct (existsb (fun k => 3 <? Z.of_nat (occurrences k keys)) keys)
    eqn:E.
  - apply existsb_exists in E as (k & Hin & Hgt).
    apply existsb_exists. exists (VNumber (Z.of_nat (occurrences k keys))).
    split; [|exact Hgt].
    apply in_map_iff. exists (k, VNumber (Z.of_nat (occurrences k keys))).
    split; [reflexivity|]. apply own_In, K, Hin.
  - destruct (existsb (above 3) (values o)) eqn:E2; [|reflexivity].
    apply existsb_exists in E2 as (v & Hv & Hgt).
    apply in_map_iff in Hv as ([k w] & <- & Hin).
    destruct (J _ _ Hin) as (n & -> & Hn). cbn [snd above] in Hgt.
    assert (X : existsb (fun k => 3 <? Z.of_nat (occurrences k keys)) keys
                = true).
    { apply existsb_exists. exists k. split.
      - apply occurrences_In. lia.
      - apply Z.ltb_lt. apply Z.ltb_lt in Hgt. lia. }
    congruence.
Qed.

Lemma word_repetition_counts_witness :
  word_repetition asciiLower (lit "a A a a b c d e f g h")
  = existsb
      (fun k =>
         3 <? Z.of_nat
                (occurrences k
                   (counted_keys asciiLower (lit "a A a a b c d e f g h"))))
      (counted_keys asciiLower (lit "a A a a b c d e f g h"))
    && (Z.of_nat (List.length (split spaces_re (lit "a A a a b c d e f g h")))
        >? 10).
Proof.
  apply (word_repetition_counts asciiLower (lit "a A a a b c d e f g h")).
  vm_compute. reflexivity.
Defined.

(* ================================================================= *)
(** ** Instances *)

(** An instance of X9: the variants of "gm frens" are the first two. *)
Lemma variants_outcome_witness :
  map v_type gm_variants
  = ["Primary Optimized"; "Conversation Starter"]
    ++ when (2 <=? Z.of_nat (List.length (sentences_of (lit "gm frens"))))
         "Short & Punchy"
    ++ when (JS.length (lit "gm frens") >? 150) "Thread Opener".
Proof.
  apply (proj2 (variants_outcome (lit "gm frens")
                  (analyzePost asciiLower (lit "gm frens") no_options)
                  no_options)).
  vm_compute. reflexivity.
Defined.

(** An instance of X12: 300 letters get the recommendation and the
    strategy. *)
Lemma thread_strategy_witness :
  s_format (generatePostingStrategy
              (analyzePost asciiLower long_text no_options) no_options)
  = "thread".
Proof.
  apply (proj2 (proj2 (proj2 (thread_strategy_and_recommendation
                                asciiLower long_text no_options)))).
  vm_compute. tauto.
Defined.

(* ================================================================= *)
(** ** Unrecognised media types *)

Lemma analyzePost_factors lower t o :
  factors (analyzePost lower t o)
  = prediction_factors t ++ quality_factors t
    ++ map trigger_factor (fired_triggers t)
    ++ map spam_factor (fired_spam lower t)
    ++ format_factors t o.
Proof.
  unfold analyzePost.
  set (r0 := mkResult t _ _ _ _ _ _ _).
  cbn [factors generateRecommendations with_recommendations
       calculateOverallScore set_overall with_scores].
  destruct (analyzeFormat_log t o
              (analyzeNegativeSignals lower t
                 (analyzeContentQuality t (analyzePredictions t r0))))
    as [F4 _].
  destruct (analyzeNegativeSignals_log lower t
              (analyzeContentQuality t (analyzePredictions t r0)))
    as [F3 _].
  destruct (analyzeContentQuality_log t (analyzePredictions t r0))
    as [F2 _].
  destruct (analyzePredictions_log t r0) as [F1 _].
  rewrite F4, F3, F2, F1. unfold r0. cbn [factors app].
  now rewrite <- !app_assoc.
Qed.

Lemma forallb_map_const {A} (P : Factor -> bool) (g : A -> Factor)
  (l : list A) :
  (forall x, In x l -> P (g x) = true) -> forallb P (map g l) = true.
Proof.
  intros H. apply forallb_forall. intros f Hf.
  apply in_map_iff in Hf as (x & <- & Hx). auto.
Qed.

Lemma no_media_signal_outside_format lower t :
  forallb (fun f => negb (media_signal (f_signal f)))
    (prediction_factors t ++ quality_factors t
     ++ map trigger_factor (fired_triggers t)
     ++ map spam_factor (fired_spam lower t)) = true.
Proof.
  unfold prediction_factors. rewrite !forallb_app.
  repeat (rewrite forallb_map_const by (intros; reflexivity)).
  cbn [andb].
  assert (Q : forallb (fun f => negb (media_signal (f_signal f)))
                (quality_factors t) = true).
  { unfold quality_factors, when.
    destruct (test informational_re t), (test digits_re t),
      (test hook_re (substring0 120 t)); reflexivity. }
  assert (T : forallb (fun f => negb (media_signal (f_signal f)))
                (map trigger_factor (fired_triggers t)) = true).
  { apply forallb_map_const. intros n Hn. unfold fired_triggers in Hn.
    apply filter_In in Hn as [Hn _]. unfold negativeTriggers in Hn.
    cbn [In] in Hn. destruct Hn as [<-|[<-|[<-|[]]]]; reflexivity. }
  assert (S : forallb (fun f => negb (media_signal (f_signal f)))
                (map spam_factor (fired_spam lower t)) = true).
  { apply forallb_map_const. reflexivity. }
  rewrite Q, T, S. reflexivity.
Qed.

(** C8. For a media type other than "image", "video" and "thread" -- absent
    or not recognised -- [analyzePost] returns the same result as for the
    media type "none".  The format pass applies no media bonus: the format
    score is 50 plus what the length gives (+10, -5 or 0), the only factor
    the pass can log is the length factor, and no factor carries a media
    signal.  The recommendations behave the same: "Consider thread format"
    is emitted exactly when the text is longer than 250 characters. *)
Theorem unrecognized_mediaType_is_none (lower : text -> text) (t : text)
  (o o' : Options) :
  mediaType o <> Some "image" -> mediaType o <> Some "video" ->
  mediaType o <> Some "thread" -> mediaType o' = Some "none" ->
  analyzePost lower t o = analyzePost lower t o'
  /\ format (scores (analyzePost lower t o)) = Some (50 + length_bonus t)
  /\ factors (analyzePost lower t o)
     = prediction_factors t ++ quality_factors t
       ++ map trigger_factor (fired_triggers t)
       ++ map spam_factor (fired_spam lower t)
       ++ when ((100 <=? JS.length t) && (JS.length t <=? 200))
            length_factor
  /\ forallb (fun f => negb (media_signal (f_signal f)))
       (factors (analyzePost lower t o)) = true
  /\ (In rec_thread (recommendations (analyzePost lower t o))
      <-> JS.length t > 250).
Proof.
  intros Hi Hv Ht Hn.
  destruct (media_of_unrecognized o Hi Hv Ht) as (E1 & E2 & E3).
  assert (F : factors (analyzePost lower t o)
              = prediction_factors t ++ quality_factors t
                ++ map trigger_factor (fired_triggers t)
                ++ map spam_factor (fired_spam lower t)
                ++ when ((100 <=? JS.length t) && (JS.length t <=? 200))
                     length_factor).
  { rewrite analyzePost_factors. unfold format_factors.
    rewrite E1, E2, E3, app_nil_r. reflexivity. }
  split; [|split; [|split; [exact F|split]]].
  - apply analyzePost_unrecognized; assumption.
  - destruct (analyzePost_spec lower t o) as (_ & _ & _ & _ & S & _).
    rewrite S. cbn [format]. unfold format_value, length_bonus.
    rewrite E1, E2, E3. f_equal.
    destruct ((100 <=? JS.length t) && (JS.length t <=? 200)),
      (JS.length t <? 50); reflexivity.
  - rewrite F.
    pose proof (no_media_signal_outside_format lower t) as N.
    replace (prediction_factors t ++ quality_factors t
             ++ map trigger_factor (fired_triggers t)
             ++ map spam_factor (fired_spam lower t)
             ++ when ((100 <=? JS.length t) && (JS.length t <=? 200))
                  length_factor)
      with ((prediction_factors t ++ quality_factors t
             ++ map trigger_factor (fired_triggers t)
             ++ map spam_factor (fired_spam lower t))
            ++ when ((100 <=? JS.length t) && (JS.length t <=? 200))
                 length_factor)
      by (now rewrite <- !app_assoc).
    rewrite forallb_app, N. unfold when, length_factor.
    destruct ((100 <=? JS.length t) && (JS.length t <=? 200)); reflexivity.
  - destruct (analyzePost_spec lower t o) as (T & _ & _ & _ & _ & R).
    cbv zeta in *. rewrite R. unfold recommendations_value. rewrite T.
    assert (NT : not_thread o = true) by (apply not_thread_spec; exact Ht).
    rewrite NT, andb_true_r. rewrite !in_app_iff, !In_when. split.
    + intros [[_ H]|[[_ H]|[[_ H]|[[H _]|[_ H]]]]]; try discriminate.
      rewrite Z.gtb_ltb in H. apply Z.ltb_lt in H. lia.
    + intros H. right. right. right. left. split; [|reflexivity].
      rewrite Z.gtb_ltb. apply Z.ltb_lt. lia.
Qed.

(** A witness of C8: the media type "gif" is not recognised. *)
Lemma unrecognized_mediaType_witness :
  analyzePost asciiLower (lit "gm frens") (mkOptions (Some "gif") None None)
  = analyzePost asciiLower (lit "gm frens")
      (mkOptions (Some "none") None None)
  /\ format (scores (analyzePost asciiLower (lit "gm frens")
                       (mkOptions (Some "gif") None None)))
     = Some (50 + length_bonus (lit "gm frens"))
  /\ factors (analyzePost asciiLower (lit "gm frens")
                (mkOptions (Some "gif") None None))
     = prediction_factors (lit "gm frens") ++ quality_factors (lit "gm frens")
       ++ map trigger_factor (fired_triggers (lit "gm frens"))
       ++ map spam_factor (fired_spam asciiLower (lit "gm frens"))
       ++ when ((100 <=? JS.length (lit "gm frens"))
                && (JS.length (lit "gm frens") <=? 200)) length_factor
  /\ forallb (fun f => negb (media_signal (f_signal f)))
       (factors (analyzePost asciiLower (lit "gm frens")
                   (mkOptions (Some "gif") None None))) = true
  /\ (In rec_thread
        (recommendations (analyzePost asciiLower (lit "gm frens")
                            (mkOptions (Some "gif") None None)))
      <-> JS.length (lit "gm frens") > 250).
Proof.
  apply (unrecognized_mediaType_is_none asciiLower (lit "gm frens")
           (mkOptions (Some "gif") None None)
           (mkOptions (Some "none") None None));
    simpl; first [discriminate | reflexivity].
Defined.
